(** * DeepHyper: the discrete hyperparameter model

    A shallow embedding of
    [search/models/parameters/discreteparameter.py]: the class
    [DiscreteParameter] with its methods [interval_list],
    [map_to_interval], [max_n] and [debug].

    Scope of the embedding.  The constructor stores whatever it is
    given.  The four methods are embedded for numeric attributes ([low],
    [high], [step_size]) that hold Python ints (unbounded, modelled as
    [Z]), the case in every construction the specification shows; every
    statement about [DiscreteParameter name low high ...] is a statement
    about a parameter with integer bounds and step.  Python floats are
    IEEE-754 binary64 values, modelled with the Standard Library's
    executable specification [SpecFloat] (precision 53, emax 1024, round
    to nearest even); [max_n] casts the three attributes with
    [float(...)], and the module [General] embeds [interval_list] and
    [debug] a second time, for bounds and steps that are ints or floats.

    A Python instance is its attribute dictionary, a finite map from
    attribute names to values; reading an attribute that was never
    assigned raises [AttributeError], and reading a global name that is
    bound neither in the module nor in the builtins raises
    [NameError]. *)

From Stdlib Require Import ZArith Lia Bool List.
From Stdlib Require Import Floats.SpecFloat.
From stdpp Require Import base decidable option list strings gmap.

Local Open Scope string_scope.
Local Open Scope list_scope.
Local Open Scope Z_scope.

(** ** Python values *)

Module Py.

(** Modelled from the spec: [deephyper.search.models.types.steptype] is
    not among the sources; the specification fixes its members as
    StepType{ARITHMETIC, GEOMETRIC}. *)
Inductive StepType := ARITHMETIC | GEOMETRIC.

(** Modelled from the spec: [deephyper.search.models.types.parametertype]
    is not among the sources; the specification names the members
    ParameterType{DISCRETE, CONTINUOUS, CATEGORICAL, ...}. *)
Inductive ParameterType := DISCRETE | CONTINUOUS | CATEGORICAL.

(** Modelled from the spec:
    [deephyper.search.models.types.discreterepresentationtype] is not
    among the sources; the specification names only the member DEFAULT
    of DiscreteRepresentationType{DEFAULT, ...}.  [REPR_MEMBER k] stands
    for the further, unnamed members. *)
Inductive DiscreteRepresentationType := DEFAULT | REPR_MEMBER (k : nat).

(** The values an attribute or a name can hold.  [VObject] is an opaque
    module-level object (a function or a class), identified by its
    name. *)
Inductive value :=
  | VNone
  | VInt (z : Z)
  | VBool (b : bool)
  | VStr (s : string)
  | VStepType (t : StepType)
  | VParameterType (t : ParameterType)
  | VReprType (t : DiscreteRepresentationType)
  | VObject (name : string).

#[global] Instance StepType_eq_dec : EqDecision StepType.
Proof. solve_decision. Defined.
#[global] Instance ParameterType_eq_dec : EqDecision ParameterType.
Proof. solve_decision. Defined.
#[global] Instance DiscreteRepresentationType_eq_dec :
  EqDecision DiscreteRepresentationType.
Proof. solve_decision. Defined.
#[global] Instance value_eq_dec : EqDecision value.
Proof. solve_decision. Defined.

(** An instance is its [__dict__]. *)
Abbreviation obj := (gmap string value).

(** ** Exceptions and the result of a call *)

Inductive exc_class :=
  | AttributeError
  | NameError
  | TypeError
  | ValueError
  | OverflowError
  | ZeroDivisionError
  | UnboundLocalError
  | Warning
  | ValidationError.

#[global] Instance exc_class_eq_dec : EqDecision exc_class.
Proof. solve_decision. Defined.

(** A raised exception: its class, its message (for the messages built
    with [str.format], the template) and the instance the template is
    formatted with, when there is one. *)
Record exn := Exn {
  exn_class : exc_class;
  exn_msg : string;
  exn_arg : option obj
}.

Inductive result (A : Type) :=
  | Ok (a : A)
  | Raised (e : exn).
Arguments Ok {A} a.
Arguments Raised {A} e.

Definition bind {A B} (r : result A) (k : A -> result B) : result B :=
  match r with
  | Ok a => k a
  | Raised e => Raised e
  end.

Definition raise {A} (c : exc_class) (msg : string) : result A :=
  Raised (Exn c msg None).

(** [raise Warning("...{0}".format(self))] *)
Definition raise_Warning {A} (template : string) (self : obj) : result A :=
  Raised (Exn Warning template (Some self)).

(** The class of the exception a call ends with, if it raises. *)
Definition raised_class {A} (r : result A) : option exc_class :=
  match r with
  | Ok _ => None
  | Raised e => Some (exn_class e)
  end.

Definition returns {A} (r : result A) (a : A) : Prop := r = Ok a.
Definition raises {A} (r : result A) (c : exc_class) : Prop :=
  raised_class r = Some c.

End Py.
Import Py.

Declare Scope py_scope.
Delimit Scope py_scope with py.
Notation "x <- c1 ;; c2" := (bind c1 (fun x => c2))
  (at level 100, c1 at next level, right associativity) : py_scope.
Notation "c1 ;;; c2" := (bind c1 (fun _ => c2))
  (at level 100, right associativity) : py_scope.
Local Open Scope py_scope.

(** ** Attribute and name lookup *)

(** [self.a], for the names the methods read: the data attributes.  The
    lookup goes through the instance dictionary; the class statement
    binds methods only, under none of these names, so the classes are
    not searched. *)
Definition getattr (self : obj) (a : string) : result value :=
  match self !! a with
  | Some v => Ok v
  | None => raise AttributeError a
  end.

(** The names the module binds at its top level: the five [import]
    statements and the [class] statement. *)
Definition module_globals : gmap string value :=
  list_to_map
    [ ("log", VObject "math.log");
      ("floor", VObject "math.floor");
      ("Parameter", VObject "Parameter");
      ("StepType", VObject "StepType");
      ("ParameterType", VObject "ParameterType");
      ("DiscreteRepresentationType", VObject "DiscreteRepresentationType");
      ("DiscreteParameter", VObject "DiscreteParameter") ].

(** The names of Python's builtin functions and of the builtin
    exception this module raises. *)
Definition builtin_names : list string :=
  [ "abs"; "all"; "any"; "ascii"; "bin"; "bool"; "breakpoint";
    "bytearray"; "bytes"; "callable"; "chr"; "classmethod"; "compile";
    "complex"; "delattr"; "dict"; "dir"; "divmod"; "enumerate"; "eval";
    "exec"; "filter"; "float"; "format"; "frozenset"; "getattr";
    "globals"; "hasattr"; "hash"; "help"; "hex"; "id"; "input"; "int";
    "isinstance"; "issubclass"; "iter"; "len"; "list"; "locals"; "map";
    "max"; "memoryview"; "min"; "next"; "object"; "oct"; "open"; "ord";
    "pow"; "print"; "property"; "range"; "repr"; "reversed"; "round";
    "set"; "setattr"; "slice"; "sorted"; "staticmethod"; "str"; "sum";
    "super"; "tuple"; "type"; "vars"; "zip"; "Warning" ].

Definition builtins : gmap string value :=
  list_to_map ((fun x => (x, VObject x)) <$> builtin_names).

(** Reading a name that the function body never assigns: the module's
    globals first, then the builtins. *)
Definition load_global (x : string) : result value :=
  match module_globals !! x with
  | Some v => Ok v
  | None =>
      match builtins !! x with
      | Some v => Ok v
      | None => raise NameError x
      end
  end.

(** ** Dynamic typing of the operands *)

(** The integer an arithmetic operand stands for.  [bool] is a subclass
    of [int]; the other values of the model are not numbers. *)
Definition int_of (v : value) : result Z :=
  match v with
  | VInt z => Ok z
  | VBool b => Ok (Z.b2z b)
  | _ => raise TypeError "unsupported operand type(s)"
  end.

(** Truth value testing, as [if v:] does it. *)
Definition truthy (v : value) : bool :=
  match v with
  | VNone => false
  | VInt z => negb (z =? 0)
  | VBool b => b
  | VStr s => negb (String.eqb s "")
  | _ => true
  end.

(** [isinstance(v, StepType)] and
    [isinstance(v, DiscreteRepresentationType)] *)
Definition is_StepType (v : value) : bool :=
  match v with VStepType _ => true | _ => false end.
Definition is_DiscreteRepresentationType (v : value) : bool :=
  match v with VReprType _ => true | _ => false end.
Definition is_ParameterType (v : value) : bool :=
  match v with VParameterType _ => true | _ => false end.

(** [self.a], used as an integer operand *)
Definition attr_int (self : obj) (a : string) : result Z :=
  v <- getattr self a;; int_of v.

(** ** Floats: IEEE-754 binary64 *)

Module Float.

Definition prec : Z := 53.
Definition emax : Z := 1024.

Abbreviation float := spec_float.

(** The double nearest to the integer [z] (ties to even), an infinity
    when [z] is beyond the largest double. *)
Definition convert (z : Z) : float := binary_normalize prec emax z 0 false.

(** The conversion of a Python int, correctly rounded; an int beyond the
    largest double raises [OverflowError]. *)
Definition of_int (z : Z) : result float :=
  match convert z with
  | S754_infinity _ => raise OverflowError "int too large to convert to float"
  | f => Ok f
  end.

(** [float(v)] *)
Definition float_ (v : value) : result float :=
  z <- int_of v;; of_int z.

Definition add : float -> float -> float := SFadd prec emax.
Definition sub : float -> float -> float := SFsub prec emax.
Definition mul : float -> float -> float := SFmul prec emax.
Definition leb : float -> float -> bool := SFleb.

Definition is_zero (x : float) : bool :=
  match x with S754_zero _ => true | _ => false end.

(** [x / y] on floats: a zero divisor raises. *)
Definition truediv (x y : float) : result float :=
  if is_zero y then raise ZeroDivisionError "float division by zero"
  else Ok (SFdiv prec emax x y).

(** [int(floor(x))]: the largest integer not above [x]; [floor] raises
    on an infinity and on a NaN. *)
Definition floor (x : float) : result Z :=
  match x with
  | S754_zero _ => Ok 0
  | S754_infinity _ =>
      raise OverflowError "cannot convert float infinity to integer"
  | S754_nan => raise ValueError "cannot convert float NaN to integer"
  | S754_finite s m e => Ok (Z.shiftl (cond_Zopp s (Zpos m)) e)
  end.

(** The number of bits of a positive integer. *)
Definition digits (p : positive) : Z := Zpos (digits2_pos p).

(** The double that holds, exactly, the positive integer [v] of at most
    53 bits: the mantissa is [v] shifted to 53 bits. *)
Definition normal (s : bool) (v : positive) : float :=
  S754_finite s (Z.to_pos (Zpos v * 2 ^ (prec - digits v))) (digits v - prec).

(** The locations at which rounding to nearest can move the mantissa up. *)
Definition round_up (l : location) : Prop :=
  l = loc_Inexact Eq \/ l = loc_Inexact Gt.

End Float.

(** ** The base class [Parameter] *)

(** Modelled from the spec: [deephyper.search.models.parameter] is not
    among the sources.  Per the specification the constructor takes
    [(name, type)] and has no side effect beyond field assignment. *)
Definition Parameter___init__ (self : obj) (name type : value) : obj :=
  <["type" := type]> (<["name" := name]> self).

(** Modelled from the spec: the base [debug()] validates that [name] and
    [type] are well-formed (the name a non-empty string, the type a
    member of ParameterType) and fails by signaling a ValidationError
    that carries the parameter. *)
Definition Parameter_debug (self : obj) : result unit :=
  name <- getattr self "name";;
  match name with
  | VStr (String _ _) =>
      type <- getattr self "type";;
      if is_ParameterType type then Ok tt
      else Raised (Exn ValidationError "type" (Some self))
  | _ => Raised (Exn ValidationError "name" (Some self))
  end.

(** ** The class [DiscreteParameter] *)

(** [DiscreteParameter.__init__]: six assignments, then the base
    constructor with [ParameterType.DISCRETE].  The arguments are stored
    as they come, whatever their types. *)
Definition DiscreteParameter___init__
    (name low high step_type step_size repr_type is_negative : value)
    : obj :=
  let self : obj := ∅ in
  let self := <["low" := low]> self in
  let self := <["high" := high]> self in
  let self := <["step_type" := step_type]> self in
  let self := <["step_size" := step_size]> self in
  let self := <["repr_type" := repr_type]> self in
  let self := <["is_negative" := is_negative]> self in
  Parameter___init__ self name (VParameterType DISCRETE).

(** The constructor called with a string for the name, integers for
    the bounds and the step and a boolean for the sign. *)
Definition DiscreteParameter (name : string) (low high : Z)
    (step_type : value) (step_size : Z) (repr_type : value)
    (is_negative : bool) : obj :=
  DiscreteParameter___init__ (VStr name) (VInt low) (VInt high) step_type
    (VInt step_size) repr_type (VBool is_negative).

(** The constructor's defaults: [step_type=StepType.ARITHMETIC],
    [step_size=1], [repr_type=DiscreteRepresentationType.DEFAULT],
    [is_negative=False]. *)
Definition default_step_type : value := VStepType ARITHMETIC.
Definition default_step_size : Z := 1.
Definition default_repr_type : value := VReprType DEFAULT.
Definition default_is_negative : bool := false.

(** The [while value_cur <= high] loop of [interval_list].  Each turn of
    the loop takes one unit of fuel; [None] means the fuel ran out with
    the loop still running. *)
Fixpoint interval_loop (fuel : nat) (high : Z) (is_neg : bool)
    (step_type : value) (step_size : Z) (values : list Z) (value_cur : Z)
    : option (list Z) :=
  if value_cur <=? high then
    match fuel with
    | O => None
    | S fuel' =>
        let values :=
          if is_neg then values ++ [- value_cur]
          else values ++ [value_cur] in
        let value_cur :=
          if decide (step_type = VStepType ARITHMETIC)
          then value_cur + step_size
          else if decide (step_type = VStepType GEOMETRIC)
          then value_cur * step_size
          else value_cur in
        interval_loop fuel' high is_neg step_type step_size values value_cur
    end
  else Some values.

(** [DiscreteParameter.interval_list] *)
Definition interval_list (fuel : nat) (self : obj)
    : result (option (list Z)) :=
  high <- getattr self "high";;
  is_neg <- getattr self "is_negative";;
  step_type <- getattr self "step_type";;
  step_size <- getattr self "step_size";;
  value_cur <- getattr self "low";;
  value_cur <- int_of value_cur;;
  high <- int_of high;;
  step_size <- int_of step_size;;
  Ok (interval_loop fuel high (truthy is_neg) step_type step_size []
        value_cur).

(** [DiscreteParameter.map_to_interval], for a non-negative index.
    [abs_val] is [None] while the local variable is unbound. *)
Definition map_to_interval (self : obj) (n : N) : result value :=
  step_type <- getattr self "step_type";;
  abs_val <-
    (if decide (step_type = VStepType ARITHMETIC) then
       low <- attr_int self "low";;
       step_size <- attr_int self "step_size";;
       Ok (Some (low + step_size * Z.of_N n))
     else
       step_type <- getattr self "step_type";;
       if decide (step_type = VStepType GEOMETRIC) then
         low <- attr_int self "low";;
         step_size <- attr_int self "step_size";;
         Ok (Some (low * step_size ^ Z.of_N n))
       else Ok None);;
  is_neg <- getattr self "is_neg";;
  match abs_val with
  | Some abs_val =>
      if truthy is_neg then Ok (VInt (- abs_val)) else Ok (VInt abs_val)
  | None => raise UnboundLocalError "abs_val"
  end.

Section MaxN.

(** [math.log(x, base)] and the power [x ** n] of a float are functions
    of the C library; [max_n] is stated for any behaviour of theirs. *)
Variable log : Float.float -> Float.float -> result Float.float.
Variable float_pow : Float.float -> Z -> result Float.float.

(** [DiscreteParameter.max_n] *)
Definition max_n (self : obj) : result value :=
  low <- getattr self "low";;
  low <- Float.float_ low;;
  high <- getattr self "high";;
  high <- Float.float_ high;;
  step_size <- getattr self "step_size";;
  step_size <- Float.float_ step_size;;
  step_type <- getattr self "step_type";;
  if decide (step_type = VStepType ARITHMETIC) then
    q <- Float.truediv (Float.sub high low) step_size;;
    n <- Float.floor q;;
    n_f <- Float.of_int n;;
    if Float.leb (Float.add (Float.mul n_f step_size) low)
         (Float.sub high step_size)
    then Ok (VInt (n + 1))
    else Ok (VInt n)
  else
    step_type <- getattr self "step_type";;
    if decide (step_type = VStepType GEOMETRIC) then
      lower_bound <- load_global "lower_bound";;
      lower_bound <- int_of lower_bound;;
      if lower_bound <? 0 then
        q <- Float.truediv low high;;
        l <- log q step_size;;
        n <- Float.floor l;;
        p <- float_pow step_size n;;
        lhs <- Float.truediv low p;;
        if Float.leb lhs (Float.mul high step_size)
        then Ok (VInt (n + 1))
        else Ok (VInt n)
      else
        q <- Float.truediv high low;;
        l <- log q step_size;;
        n <- Float.floor l;;
        p <- float_pow step_size n;;
        rhs <- Float.truediv high step_size;;
        if Float.leb (Float.mul low p) rhs
        then Ok (VInt (n + 1))
        else Ok (VInt n)
    else Ok VNone.

End MaxN.

(** [DiscreteParameter.debug] *)
Definition debug (self : obj) : result unit :=
  Parameter_debug self;;;
  step_type <- getattr self "step_type";;
  if negb (is_StepType step_type) then
    raise_Warning
      "Parameter constructed with unrecognized step type: {0}" self
  else
  repr_type <- getattr self "repr_type";;
  if negb (is_DiscreteRepresentationType repr_type) then
    raise_Warning
      "Parameter constructed with unrecognized representation type: {0}"
      self
  else
  low <- attr_int self "low";;
  if low <? 0 then
    raise_Warning
      "Discrete parameter constructed with negative lower bound. Please make use of the `is_negative` constructor argument. {0}"
      self
  else
  low <- attr_int self "low";;
  high <- attr_int self "high";;
  if low >=? high then
    raise_Warning
      "Parameter's lower bound exceeds or is equal to to its upper bound: {0}"
      self
  else
  step_size <- attr_int self "step_size";;
  if step_size <=? 0 then
    raise_Warning
      "Parameter constructed with step size less than or equal to 0: {0}"
      self
  else
  step_type <- getattr self "step_type";;
  geometric_small <-
    (if decide (step_type = VStepType GEOMETRIC) then
       step_size <- attr_int self "step_size";; Ok (step_size <=? 1)
     else Ok false);;
  if (geometric_small : bool) then
    raise_Warning
      "Parameter has geometric step type and step size <= 1: {0}" self
  else
  step_type <- getattr self "step_type";;
  if decide (step_type = VStepType GEOMETRIC) then
    low <- attr_int self "low";;
    zero_bound <-
      (if low =? 0 then Ok true
       else high <- attr_int self "high";; Ok (high =? 0));;
    if (zero_bound : bool) then
      raise_Warning
        "Parameter has geometric step type and a bound of 0 on its interval: {0}"
        self
    else
    low <- attr_int self "low";;
    sign_mismatch <-
      (low_neg_high_pos <-
         (if low <? 0 then high <- attr_int self "high";; Ok (high >? 0)
          else Ok false);;
       if (low_neg_high_pos : bool) then Ok true
       else
         low <- attr_int self "low";;
         if low >? 0 then high <- attr_int self "high";; Ok (high <? 0)
         else Ok false);;
    if (sign_mismatch : bool) then
      raise_Warning
        "Parameter has geometric step type and its bounds have different sign: {0}"
        self
    else Ok tt
  else Ok tt.

(** ** Bounds and steps that are ints or floats

    Nothing in the class asks for integers: the constructor stores the
    bounds and the step as they come, and the sums, products and
    comparisons of [interval_list] and [debug] are Python's, defined on
    ints and floats alike.  This module embeds the two methods on
    numbers of either kind; on integers they are the methods above. *)

Module General.

(** A Python number: an int or a float. *)
Inductive number :=
  | Int (z : Z)
  | Flt (f : Float.float).

(** The float an operand of mixed arithmetic is converted to. *)
Definition to_float (x : number) : result Float.float :=
  match x with
  | Int z => Float.of_int z
  | Flt f => Ok f
  end.

(** [x + y]: the exact sum of two ints, the float sum otherwise. *)
Definition add (x y : number) : result number :=
  match x, y with
  | Int a, Int b => Ok (Int (a + b))
  | _, _ => a <- to_float x;; b <- to_float y;; Ok (Flt (Float.add a b))
  end.

(** [x * y]: the exact product of two ints, the float product
    otherwise. *)
Definition mul (x y : number) : result number :=
  match x, y with
  | Int a, Int b => Ok (Int (a * b))
  | _, _ => a <- to_float x;; b <- to_float y;; Ok (Flt (Float.mul a b))
  end.

(** [-x] *)
Definition neg (x : number) : number :=
  match x with
  | Int a => Int (- a)
  | Flt f => Flt (SFopp f)
  end.

(** The order of a float and an int.  Python compares the two values
    exactly, without converting the int; a NaN is unordered. *)
Definition compare_float_int (f : Float.float) (z : Z) : option comparison :=
  match f with
  | S754_nan => None
  | S754_infinity s => Some (if s then Lt else Gt)
  | S754_zero _ => Some (0 ?= z)
  | S754_finite s m e =>
      let v := cond_Zopp s (Zpos m) in
      Some (if 0 <=? e then v * 2 ^ e ?= z else v ?= z * 2 ^ (- e))
  end.

Definition compare (x y : number) : option comparison :=
  match x, y with
  | Int a, Int b => Some (a ?= b)
  | Flt f, Flt g => SFcompare f g
  | Flt f, Int b => compare_float_int f b
  | Int a, Flt g => CompOpp <$> compare_float_int g a
  end.

(** [x < y], [x <= y], [x > y], [x >= y] and [x == y]; each is false on
    a NaN. *)
Definition ltb (x y : number) : bool :=
  match compare x y with Some Lt => true | _ => false end.
Definition leb (x y : number) : bool :=
  match compare x y with Some Lt | Some Eq => true | _ => false end.
Definition gtb (x y : number) : bool :=
  match compare x y with Some Gt => true | _ => false end.
Definition geb (x y : number) : bool :=
  match compare x y with Some Gt | Some Eq => true | _ => false end.
Definition eqb (x y : number) : bool :=
  match compare x y with Some Eq => true | _ => false end.

(** An instance, as the values of the attributes the constructor
    assigns; [DiscreteParameter] is the constructor call. *)
Record parameter := DiscreteParameter {
  name : string;
  low : number;
  high : number;
  step_type : value;
  step_size : number;
  repr_type : value;
  is_negative : bool
}.

(** The [while value_cur <= high] loop of [interval_list]; a conversion
    of [value_cur += step_size] or [value_cur *= step_size] can raise. *)
Fixpoint interval_loop (fuel : nat) (high : number) (is_neg : bool)
    (step_type : value) (step_size : number) (values : list number)
    (value_cur : number) : result (option (list number)) :=
  if leb value_cur high then
    match fuel with
    | O => Ok None
    | S fuel' =>
        let values :=
          if is_neg then values ++ [neg value_cur]
          else values ++ [value_cur] in
        match
          (if decide (step_type = VStepType ARITHMETIC)
           then add value_cur step_size
           else if decide (step_type = VStepType GEOMETRIC)
           then mul value_cur step_size
           else Ok value_cur)
        with
        | Ok value_cur =>
            interval_loop fuel' high is_neg step_type step_size values
              value_cur
        | Raised e => Raised e
        end
    end
  else Ok (Some values).

(** [DiscreteParameter.interval_list] *)
Definition interval_list (fuel : nat) (self : parameter)
    : result (option (list number)) :=
  interval_loop fuel (high self) (is_negative self) (step_type self)
    (step_size self) [] (low self).

(** [DiscreteParameter.debug]; the messages are the templates, without
    the rendering of the instance. *)
Definition debug (self : parameter) : result unit :=
  Parameter_debug
    (Parameter___init__ ∅ (VStr (name self)) (VParameterType DISCRETE));;;
  if negb (is_StepType (step_type self)) then
    raise Warning "Parameter constructed with unrecognized step type: {0}"
  else if negb (is_DiscreteRepresentationType (repr_type self)) then
    raise Warning
      "Parameter constructed with unrecognized representation type: {0}"
  else if ltb (low self) (Int 0) then
    raise Warning
      "Discrete parameter constructed with negative lower bound. Please make use of the `is_negative` constructor argument. {0}"
  else if geb (low self) (high self) then
    raise Warning
      "Parameter's lower bound exceeds or is equal to to its upper bound: {0}"
  else if leb (step_size self) (Int 0) then
    raise Warning
      "Parameter constructed with step size less than or equal to 0: {0}"
  else if bool_decide (step_type self = VStepType GEOMETRIC)
          && leb (step_size self) (Int 1) then
    raise Warning "Parameter has geometric step type and step size <= 1: {0}"
  else if decide (step_type self = VStepType GEOMETRIC) then
    if eqb (low self) (Int 0) || eqb (high self) (Int 0) then
      raise Warning
        "Parameter has geometric step type and a bound of 0 on its interval: {0}"
    else if (ltb (low self) (Int 0) && gtb (high self) (Int 0))
            || (gtb (low self) (Int 0) && ltb (high self) (Int 0)) then
      raise Warning
        "Parameter has geometric step type and its bounds have different sign: {0}"
    else Ok tt
  else Ok tt.

(** The instance constructed with integer bounds and step. *)
Definition of_ints (name : string) (low high : Z) (step_type : value)
    (step_size : Z) (repr_type : value) (is_negative : bool) : parameter :=
  DiscreteParameter name (Int low) (Int high) step_type (Int step_size)
    repr_type is_negative.


(** The floats [0.1], [0.2] and [0.3]: the doubles nearest to 1/10, 2/10
    and 3/10 ([0x1.999999999999ap-4], [0x1.999999999999ap-3] and
    [0x1.3333333333333p-2]). *)
Definition tenth : Float.float := S754_finite false 7205759403792794 (-56).
Definition fifth : Float.float := S754_finite false 7205759403792794 (-55).
Definition three_tenths : Float.float :=
  S754_finite false 5404319552844595 (-54).

End General.

(** ** The parameters of the specification's scenarios *)

(** [DiscreteParameter("batch", low=1, high=128,
      step_type=StepType.GEOMETRIC, step_size=2)] *)
Definition batch : obj :=
  DiscreteParameter "batch" 1 128 (VStepType GEOMETRIC) 2
    default_repr_type default_is_negative.

(** [DiscreteParameter("units", low=32, high=512,
      step_type=StepType.ARITHMETIC, step_size=32)] *)
Definition units : obj :=
  DiscreteParameter "units" 32 512 (VStepType ARITHMETIC) 32
    default_repr_type default_is_negative.

(** An arithmetic parameter whose step is not a double:
    [DiscreteParameter("wide", low=0, high=2**53, step_size=2**53 + 1)]. *)
Definition wide : obj :=
  DiscreteParameter "wide" 0 (2 ^ 53) default_step_type (2 ^ 53 + 1)
    default_repr_type default_is_negative.

(** [units] with the sign asked for:
    [DiscreteParameter("units", low=32, high=512,
      step_type=StepType.ARITHMETIC, step_size=32, is_negative=True)] *)
Definition units_negative : obj :=
  DiscreteParameter "units" 32 512 (VStepType ARITHMETIC) 32
    default_repr_type true.


(** A parameter with float bounds and step:
    [DiscreteParameter("tenths", low=0, high=0.3, step_size=0.1)] *)
Definition tenths : General.parameter :=
  General.DiscreteParameter "tenths" (General.Int 0)
    (General.Flt General.three_tenths) default_step_type
    (General.Flt General.tenth) default_repr_type default_is_negative.

(** A parameter without a lower bound:
    [DiscreteParameter("unbounded", None, 10)] *)
Definition unbounded : obj :=
  DiscreteParameter___init__ (VStr "unbounded") VNone (VInt 10)
    default_step_type (VInt default_step_size) default_repr_type
    (VBool default_is_negative).

(** The statement of the specification about an arithmetic parameter:
    [interval_list()] has exactly [max_n() + 1] elements, the first is
    [low] with the sign applied, the last is at most [high] in magnitude
    and consecutive elements differ by exactly [step_size] in
    magnitude. *)
Definition arithmetic_interval_spec
    (log : Float.float -> Float.float -> result Float.float)
    (float_pow : Float.float -> Z -> result Float.float)
    (self : obj) (low high step_size : Z) (is_negative : bool) : Prop :=
  exists fuel l n,
    interval_list fuel self = Ok (Some l)
    /\ max_n log float_pow self = Ok (VInt n)
    /\ Z.of_nat (length l) = n + 1
    /\ head l = Some (if is_negative then - low else low)
    /\ (exists x, last l = Some x /\ Z.abs x <= high)
    /\ forall i x y,
         l !! i = Some x -> l !! S i = Some y -> Z.abs y - Z.abs x = step_size.

(** ** What [debug] accepts *)

(** The conditions on the constructor's arguments under which none of
    the [raise] statements of [DiscreteParameter.debug] is reached. *)
Definition well_formed (low high : Z) (step_type : value) (step_size : Z)
    (repr_type : value) : bool :=
  is_StepType step_type
  && is_DiscreteRepresentationType repr_type
  && (0 <=? low) && (low <? high) && (0 <? step_size)
  && (if decide (step_type = VStepType GEOMETRIC)
      then (1 <? step_size) && negb (low =? 0)
      else true).

(** The sign [interval_list] and [map_to_interval] give a magnitude. *)
Definition signed (is_negative : bool) (magnitude : Z) : Z :=
  if is_negative then - magnitude else magnitude.

(** The update of [value_cur] at the end of the loop body. *)
Definition next_value (step_type : value) (step_size value_cur : Z) : Z :=
  if decide (step_type = VStepType ARITHMETIC)
  then value_cur + step_size
  else if decide (step_type = VStepType GEOMETRIC)
  then value_cur * step_size
  else value_cur.

(** The unsigned magnitude at index [n]: [low + step_size * n] on an
    arithmetic interval, [low * step_size ** n] on a geometric one. *)
Definition magnitude (step_type : StepType) (low step_size n : Z) : Z :=
  match step_type with
  | ARITHMETIC => low + step_size * n
  | GEOMETRIC => low * step_size ^ n
  end.

(** [n] is the greatest natural number whose magnitude does not exceed
    [high], in the words of the docstring of [max_n]. *)
Definition greatest_index (step_type : StepType) (low high step_size n : Z)
    : Prop :=
  0 <= n
  /\ magnitude step_type low step_size n <= high
  /\ forall k, n < k -> high < magnitude step_type low step_size k.

(** ** Assigning an attribute from outside *)

(** [self.a = v] *)
Definition setattr (self : obj) (a : string) (v : value) : obj :=
  <[a := v]> self.

(** The list of the scenario [units]. *)
Definition units_interval : list Z :=
  [32; 64; 96; 128; 160; 192; 224; 256; 288; 320; 352; 384; 416; 448; 480;
   512].

(** The list of the scenario [batch]. *)
Definition batch_interval : list Z := [1; 2; 4; 8; 16; 32; 64; 128].

(** The message of the last [raise] of [DiscreteParameter.debug]. *)
Definition different_sign_message : string :=
  "Parameter has geometric step type and its bounds have different sign: {0}".

(** ** [DiscreteParameter.__str__] and [__repr__] *)

Section Str.

(** Python's [str(v)], which [str.format] applies to each argument, is
    taken as it comes: the enumeration classes, whose rendering it would
    need, are not among the sources. *)
Variable str_ : value -> string.

(** [DiscreteParameter.__str__]: the eight attributes are read from left
    to right, then the template is filled. *)
Definition DiscreteParameter___str__ (self : obj) : result string :=
  name <- getattr self "name";;
  type <- getattr self "type";;
  low <- getattr self "low";;
  high <- getattr self "high";;
  step_type <- getattr self "step_type";;
  step_size <- getattr self "step_size";;
  repr_type <- getattr self "repr_type";;
  is_negative <- getattr self "is_negative";;
  Ok ("<param n: '" +:+ str_ name +:+ "', t: " +:+ str_ type
      +:+ ", low: " +:+ str_ low +:+ ", high: " +:+ str_ high
      +:+ ", step_t: " +:+ str_ step_type
      +:+ ", step_s: " +:+ str_ step_size
      +:+ ", repr_t: " +:+ str_ repr_type
      +:+ ", is_neg: " +:+ str_ is_negative +:+ ">").

(** [DiscreteParameter.__repr__] *)
Definition DiscreteParameter___repr__ (self : obj) : result string :=
  DiscreteParameter___str__ self.

End Str.

(** The attributes [__str__] reads, in the order it reads them. *)
Definition rendered_attributes : list string :=
  [ "name"; "type"; "low"; "high"; "step_type"; "step_size"; "repr_type";
    "is_negative" ].

(** ** [setup.py]: the requirements, by environment *)

Module Setup.

(** [os.environ], a map from variable names to strings;
    [os.environ.get(k)] is the lookup. *)
Abbreviation environ := (gmap string string).

(** [needle in hay], on strings: [needle] occurs in [hay]. *)
Fixpoint contains (needle hay : string) : bool :=
  String.prefix needle hay
  || match hay with
     | EmptyString => false
     | String _ rest => contains needle rest
     end.

(** [on_rtd = os.environ.get('READTHEDOCS') == 'True'] *)
Definition on_rtd (env : environ) : bool :=
  bool_decide (env !! "READTHEDOCS" = Some "True").

(** [on_theta = type(os.environ.get('HOST')) is str
      and 'theta' in os.environ.get('HOST')] *)
Definition on_theta (env : environ) : bool :=
  match env !! "HOST" with
  | Some host => contains "theta" host
  | None => false
  end.

(** [on_gpu = type(os.environ.get('DH_GPU')) is str
      and 'true' == os.environ.get('DH_GPU')] *)
Definition on_gpu (env : environ) : bool :=
  match env !! "DH_GPU" with
  | Some v => bool_decide ("true" = v)
  | None => false
  end.

(** The list [REQUIRED] as the module first binds it. *)
Definition REQUIRED_base : list string :=
  [ "numpy"; "scikit-optimize"; "scikit-learn"; "tqdm";
    "tensorflow>=1.11.0"; "keras"; "deap"; "gym"; "networkx"; "joblib" ].

(** [l.remove(x)]: the first occurrence of [x] goes; [ValueError] when
    there is none. *)
Fixpoint list_remove (x : string) (l : list string) : option (list string) :=
  match l with
  | [] => None
  | y :: l' =>
      if decide (x = y) then Some l'
      else cons y <$> list_remove x l'
  end.

Definition remove (x : string) (l : list string) : result (list string) :=
  match list_remove x l with
  | Some l' => Ok l'
  | None => raise ValueError "list.remove(x): x not in list"
  end.

(** The dictionary [EXTRAS]. *)
Definition EXTRAS : gmap string (list string) :=
  list_to_map
    [ ("tests", ["pytest"]);
      ("docs", ["Sphinx>=1.8.2"; "sphinx_rtd_theme"; "sphinx_copybutton"]);
      ("analytics", ["jupyter"; "jupyter_contrib_nbextensions"]) ].

(** The [if on_theta: ... elif ... else ...] statement of the module:
    the lists [REQUIRED] and [DP_LINKS] it leaves. *)
Definition requirements (env : environ)
    : result (list string * list string) :=
  let REQUIRED := REQUIRED_base in
  let DP_LINKS : list string := [] in
  if on_theta env then
    let REQUIRED := REQUIRED ++ ["mpi4py"] in
    let REQUIRED := REQUIRED ++ ["balsam"] in
    let DP_LINKS :=
      DP_LINKS
      ++ ["https://github.com/balsam-alcf/balsam/tree/master#egg=balsam-0.2"]
    in
    Ok (REQUIRED, DP_LINKS)
  else if negb (on_rtd env) && negb (on_gpu env) then
    let REQUIRED := REQUIRED ++ ["mpi4py>=3.0.0"] in
    Ok (REQUIRED, DP_LINKS)
  else if on_gpu env then
    REQUIRED <- remove "tensorflow>=1.11.0" REQUIRED;;
    let REQUIRED := REQUIRED ++ ["tensorflow-gpu"] in
    let REQUIRED := REQUIRED ++ ["mpi4py"] in
    Ok (REQUIRED, DP_LINKS)
  else
    let REQUIRED := REQUIRED ++ ["Sphinx>=1.8.2"] in
    let REQUIRED := REQUIRED ++ ["sphinx_rtd_theme"] in
    let REQUIRED := REQUIRED ++ ["sphinx_copybutton"] in
    Ok (REQUIRED, DP_LINKS).

End Setup.

(** * Properties *)

(** ** Reading the attributes of a constructed instance *)

Section Constructed.

Variables (name : string) (low high : Z) (step_type : value)
  (step_size : Z) (repr_type : value) (is_negative : bool).

Let self : obj :=
  DiscreteParameter name low high step_type step_size repr_type is_negative.

Lemma getattr_low : getattr self "low" = Ok (VInt low).
Proof. reflexivity. Qed.

Lemma getattr_high : getattr self "high" = Ok (VInt high).
Proof. reflexivity. Qed.

Lemma getattr_step_type : getattr self "step_type" = Ok step_type.
Proof. reflexivity. Qed.

Lemma getattr_step_size : getattr self "step_size" = Ok (VInt step_size).
Proof. reflexivity. Qed.

Lemma getattr_repr_type : getattr self "repr_type" = Ok repr_type.
Proof. reflexivity. Qed.

Lemma getattr_is_negative :
  getattr self "is_negative" = Ok (VBool is_negative).
Proof. reflexivity. Qed.

Lemma getattr_name : getattr self "name" = Ok (VStr name).
Proof. reflexivity. Qed.

Lemma getattr_type : getattr self "type" = Ok (VParameterType DISCRETE).
Proof. reflexivity. Qed.

(** The constructor assigns [is_negative]; no attribute [is_neg] exists. *)
Lemma getattr_is_neg : getattr self "is_neg" = raise AttributeError "is_neg".
Proof. reflexivity. Qed.

Lemma attr_int_low : attr_int self "low" = Ok low.
Proof. reflexivity. Qed.

Lemma attr_int_high : attr_int self "high" = Ok high.
Proof. reflexivity. Qed.

Lemma attr_int_step_size : attr_int self "step_size" = Ok step_size.
Proof. reflexivity. Qed.

Lemma interval_list_constructed fuel :
  interval_list fuel self
  = Ok (interval_loop fuel high is_negative step_type step_size [] low).
Proof. reflexivity. Qed.

End Constructed.

Section Validation.

Variables (name : string) (low high : Z) (step_type : value)
  (step_size : Z) (repr_type : value) (is_negative : bool).

Let self : obj :=
  DiscreteParameter name low high step_type step_size repr_type is_negative.

Lemma Parameter_debug_constructed :
  Parameter_debug self
  = match name with
    | String _ _ => Ok tt
    | EmptyString => Raised (Exn ValidationError "name" (Some self))
    end.
Proof.
  subst self. unfold Parameter_debug. rewrite getattr_name. cbn [bind].
  destruct name; reflexivity.
Qed.

Ltac read_attrs :=
  repeat first
    [ rewrite getattr_step_type | rewrite getattr_repr_type
    | rewrite attr_int_low | rewrite attr_int_high
    | rewrite attr_int_step_size ];
  cbn [bind].

(** The class of what [debug] raises, by cases on the arguments. *)
Lemma debug_constructed_class :
  raised_class (debug self)
  = match name with
    | EmptyString => Some ValidationError
    | String _ _ =>
        if well_formed low high step_type step_size repr_type
        then None else Some Warning
    end.
Proof.
  unfold debug, well_formed. rewrite Parameter_debug_constructed.
  subst self. destruct name as [|c name']; [reflexivity|]. cbn [bind].
  read_attrs. destruct (is_StepType step_type); [|reflexivity]. cbn [negb andb].
  read_attrs. destruct (is_DiscreteRepresentationType repr_type); [|reflexivity].
  cbn [negb andb]. read_attrs.
  destruct (Z.ltb_spec low 0), (Z.leb_spec 0 low); try lia; [reflexivity|].
  cbn [andb]. read_attrs.
  destruct (Z.geb_spec low high), (Z.ltb_spec low high); try lia; [reflexivity|].
  cbn [andb]. read_attrs.
  destruct (Z.leb_spec step_size 0), (Z.ltb_spec 0 step_size); try lia; [reflexivity|].
  cbn [andb]. read_attrs.
  destruct (decide (step_type = VStepType GEOMETRIC)) as [Hg|Hg]; [|reflexivity].
  read_attrs.
  destruct (Z.leb_spec step_size 1), (Z.ltb_spec 1 step_size); try lia; [reflexivity|].
  cbn [andb]. read_attrs.
  destruct (Z.eqb_spec low 0); [reflexivity|]. read_attrs.
  destruct (Z.eqb_spec high 0); [lia|]. cbn [negb]. read_attrs.
  destruct (Z.ltb_spec low 0); [lia|]. cbn [bind]. read_attrs.
  destruct (Z.gtb_spec low 0); [|lia]. read_attrs.
  destruct (Z.ltb_spec high 0); [lia|]. reflexivity.
Qed.

(** [debug] returns exactly on the well-formed arguments. *)
Lemma debug_constructed_ok :
  debug self = Ok tt
  <-> name <> "" /\ well_formed low high step_type step_size repr_type = true.
Proof.
  pose proof debug_constructed_class as Hc.
  destruct (debug self) as [[]|e] eqn:Hd; cbn [raised_class] in Hc.
  - split; [intros _|reflexivity].
    destruct name; [discriminate|].
    destruct (well_formed _ _ _ _ _);
      [split; [discriminate|reflexivity]|discriminate].
  - split; [discriminate|]. intros [Hn Hw]. rewrite Hw in Hc.
    destruct name; [contradiction|discriminate].
Qed.

End Validation.

(** ** The loop of [interval_list] *)

Section Loop.

Variables (high : Z) (is_neg : bool) (step_type : value) (step_size : Z).

Let loop fuel values value_cur :=
  interval_loop fuel high is_neg step_type step_size values value_cur.
Let next := next_value step_type step_size.

Lemma interval_loop_step fuel values value_cur :
  value_cur <= high ->
  loop (S fuel) values value_cur
  = loop fuel (values ++ [signed is_neg value_cur]) (next value_cur).
Proof.
  intros Hle. subst loop next. cbn [interval_loop].
  destruct (Z.leb_spec value_cur high); [|lia].
  unfold signed, next_value. destruct is_neg; reflexivity.
Qed.

Lemma interval_loop_exit fuel values value_cur :
  high < value_cur -> loop fuel values value_cur = Some values.
Proof.
  intros Hlt. subst loop.
  destruct fuel; cbn [interval_loop];
    destruct (Z.leb_spec value_cur high); (lia || reflexivity).
Qed.

Lemma interval_loop_out_of_fuel values value_cur :
  value_cur <= high -> loop 0%nat values value_cur = None.
Proof.
  intros Hle. subst loop. cbn [interval_loop].
  destruct (Z.leb_spec value_cur high); [reflexivity|lia].
Qed.

(** The loop returns after [k] turns when the [k]-th iterate of the
    update is the first to exceed [high]; the list holds the signed
    iterates before it. *)
Lemma interval_loop_iterates (k : nat) :
  forall fuel values value_cur,
    (k <= fuel)%nat ->
    (forall i, (i < k)%nat -> Nat.iter i next value_cur <= high) ->
    high < Nat.iter k next value_cur ->
    loop fuel values value_cur
    = Some (values
            ++ ((fun i => signed is_neg (Nat.iter i next value_cur))
                  <$> seq 0 k)).
Proof.
  induction k as [|k IH]; intros fuel values value_cur Hfuel Hin Hout.
  - cbn [seq fmap list_fmap]. rewrite app_nil_r.
    apply interval_loop_exit. exact Hout.
  - destruct fuel as [|fuel]; [lia|].
    assert (Hle : value_cur <= high) by (apply (Hin 0%nat); lia).
    rewrite (interval_loop_step _ _ _ Hle).
    rewrite (IH fuel _ (next value_cur)).
    + f_equal. rewrite <- app_assoc. f_equal.
      cbn [seq fmap list_fmap app Nat.iter]. f_equal.
      rewrite <- seq_shift, <- list_fmap_compose.
      apply list_fmap_ext. intros _ i _. unfold compose.
      now rewrite <- Nat.iter_succ_r.
    + lia.
    + intros i Hi. rewrite <- Nat.iter_succ_r. apply Hin. lia.
    + now rewrite <- Nat.iter_succ_r.
Qed.

(** More fuel does not change a returned list. *)
Lemma interval_loop_fuel_mono fuel fuel' values value_cur l :
  loop fuel values value_cur = Some l ->
  (fuel <= fuel')%nat ->
  loop fuel' values value_cur = Some l.
Proof.
  revert fuel' values value_cur.
  induction fuel as [|fuel IH]; intros fuel' values value_cur Hl Hle.
  - destruct (Z.leb_spec value_cur high) as [Hc|Hc].
    + rewrite interval_loop_out_of_fuel in Hl by exact Hc. discriminate.
    + rewrite interval_loop_exit in Hl |- * by exact Hc. exact Hl.
  - destruct fuel' as [|fuel']; [lia|].
    destruct (Z.leb_spec value_cur high) as [Hc|Hc].
    + rewrite interval_loop_step in Hl |- * by exact Hc.
      apply IH; [exact Hl|lia].
    + rewrite interval_loop_exit in Hl |- * by exact Hc. exact Hl.
Qed.


(** The loop ends when every turn moves [value_cur] up: the distance to
    [high] bounds the number of turns. *)
Lemma interval_loop_terminates (floor_ : Z) :
  (forall v, floor_ <= v -> v <= high -> v < next v) ->
  forall fuel values value_cur,
    floor_ <= value_cur ->
    (Z.to_nat (high - value_cur + 1) <= fuel)%nat ->
    exists l, loop fuel values value_cur = Some l.
Proof.
  intros Hup. induction fuel as [|fuel IH]; intros values value_cur Hfl Hfuel.
  - exists values. apply interval_loop_exit. lia.
  - destruct (Z.leb_spec value_cur high) as [Hc|Hc].
    + rewrite interval_loop_step by exact Hc.
      specialize (Hup value_cur Hfl Hc).
      apply IH; lia.
    + exists values. apply interval_loop_exit. exact Hc.
Qed.

End Loop.

(** ** Doubles that hold integers

    Below [2 ^ 53] every integer is a double, and the sums, differences
    and products [max_n] forms on them are exact; its one division is
    rounded, and the floor of the rounded quotient is the integer
    quotient. *)

Module FloatFacts.
Import Float.

Lemma digits_pos p : 0 < digits p.
Proof. unfold digits. lia. Qed.

Lemma digits_bounds p : 2 ^ (digits p - 1) <= Zpos p < 2 ^ digits p.
Proof.
  unfold digits. induction p as [p IH|p IH|]; cbn [digits2_pos].
  - rewrite Pos2Z.inj_succ. replace (Z.succ (Zpos (digits2_pos p)) - 1) with (Z.succ (Zpos (digits2_pos p) - 1)) by lia.
    rewrite !Z.pow_succ_r by lia. lia.
  - rewrite Pos2Z.inj_succ. replace (Z.succ (Zpos (digits2_pos p)) - 1) with (Z.succ (Zpos (digits2_pos p) - 1)) by lia.
    rewrite !Z.pow_succ_r by lia. lia.
  - cbn. lia.
Qed.

Lemma digits_unique p d : 2 ^ (d - 1) <= Zpos p < 2 ^ d -> digits p = d.
Proof.
  intros [Hlo Hhi]. pose proof (digits_bounds p) as [Blo Bhi].
  pose proof (digits_pos p).
  assert (0 < d). { destruct (Z.ltb_spec 0 d); [lia|]. 
    assert (2 ^ d <= 2 ^ 0) by (apply Z.pow_le_mono_r; lia). simpl in *. lia. }
  destruct (Z.lt_trichotomy (digits p) d) as [Hlt|[Heq|Hgt]]; [|exact Heq|].
  - assert (2 ^ digits p <= 2 ^ (d - 1)) by (apply Z.pow_le_mono_r; lia). lia.
  - assert (2 ^ d <= 2 ^ (digits p - 1)) by (apply Z.pow_le_mono_r; lia). lia.
Qed.

Lemma digits_mul_pow2 p k :
  0 <= k -> digits (Z.to_pos (Zpos p * 2 ^ k)) = digits p + k.
Proof.
  intros Hk. apply digits_unique.
  pose proof (digits_bounds p) as [Blo Bhi]. pose proof (digits_pos p).
  assert (0 < 2 ^ k) by (apply Z.pow_pos_nonneg; lia).
  rewrite Z2Pos.id by nia.
  replace (digits p + k - 1) with ((digits p - 1) + k) by lia.
  rewrite !Z.pow_add_r by lia. nia.
Qed.

Lemma iter_pos_nat {A} (f : A -> A) n x :
  SpecFloat.iter_pos f n x = Nat.iter (Pos.to_nat n) f x.
Proof.
  revert x. induction n as [n IH|n IH|]; intros x; cbn [SpecFloat.iter_pos].
  - rewrite !IH, Pos2Nat.inj_xI.
    replace (S (2 * Pos.to_nat n))%nat with (Pos.to_nat n + (Pos.to_nat n + 1))%nat by lia.
    rewrite !Nat.iter_add. reflexivity.
  - rewrite !IH, Pos2Nat.inj_xO.
    replace (2 * Pos.to_nat n)%nat with (Pos.to_nat n + Pos.to_nat n)%nat by lia.
    rewrite Nat.iter_add. reflexivity.
  - reflexivity.
Qed.

Lemma shr_1_even (m : positive) :
  shr_1 (Build_shr_record (Zpos m~0) false false) = Build_shr_record (Zpos m) false false.
Proof. reflexivity. Qed.

Lemma iter_shr_1_exact (n : nat) (m : positive) :
  Nat.iter n shr_1 (Build_shr_record (Zpos m * 2 ^ Z.of_nat n) false false)
  = Build_shr_record (Zpos m) false false.
Proof.
  revert m. induction n as [|n IH]; intros m.
  - cbn [Nat.iter Z.of_nat]. rewrite Z.pow_0_r, Z.mul_1_r. reflexivity.
  - rewrite Nat.iter_succ_r.
    replace (Zpos m * 2 ^ Z.of_nat (S n)) with (Zpos (Z.to_pos (Zpos m * 2 ^ Z.of_nat n))~0).
    + rewrite shr_1_even. 
      assert (0 < 2 ^ Z.of_nat n) by (apply Z.pow_pos_nonneg; lia).
      rewrite Z2Pos.id by nia. apply IH.
    + assert (0 < 2 ^ Z.of_nat n) by (apply Z.pow_pos_nonneg; lia).
      rewrite Pos2Z.inj_xO, Z2Pos.id by nia.
      rewrite Nat2Z.inj_succ, Z.pow_succ_r by lia. lia.
Qed.

Lemma shr_exact (m : positive) e n :
  0 <= n ->
  shr (Build_shr_record (Zpos m * 2 ^ n) false false) e n
  = (Build_shr_record (Zpos m) false false, e + n).
Proof.
  intros Hn. destruct n as [|p|p]; [| |lia].
  - cbn [shr]. change (2 ^ 0) with 1. rewrite Z.mul_1_r, Z.add_0_r. reflexivity.
  - cbn [shr]. rewrite iter_pos_nat. f_equal.
    rewrite <- (positive_nat_Z p) at 1. apply iter_shr_1_exact.
Qed.

Lemma fexp_normal d : -1021 <= d -> fexp prec emax d = d - prec.
Proof. intros H. unfold fexp, emin, prec, emax. lia. Qed.

Lemma digits_scaled (m v : positive) k :
  0 <= k -> Zpos m = Zpos v * 2 ^ k -> digits m = digits v + k.
Proof.
  intros Hk Hm. rewrite <- (digits_mul_pow2 v k Hk), <- Hm.
  reflexivity.
Qed.

(** Rounding a representable value is exact *)
Lemma binary_round_aux_exact s (m v : positive) k :
  digits v <= prec -> prec <= digits v + k ->
  Zpos m = Zpos v * 2 ^ k ->
  binary_round_aux prec emax s (Zpos m) (- k) loc_Exact = normal s v.
Proof.
  intros Hd Hk Hm. pose proof (digits_pos v) as Hp.
  assert (Hk0 : 0 <= k) by lia.
  assert (H2k : 0 < 2 ^ k) by (apply Z.pow_pos_nonneg; lia).
  unfold binary_round_aux, shr_fexp.
  cbn [shr_record_of_loc].
  change (Zdigits2 (Zpos m)) with (digits m).
  rewrite (digits_scaled m v k Hk0 Hm).
  rewrite fexp_normal by (unfold prec in *; lia).
  set (n := digits v + k - prec).
  replace (digits v + k + - k - prec - - k) with n by lia.
  set (m0 := Z.to_pos (Zpos v * 2 ^ (prec - digits v))).
  assert (Hm0 : Zpos m0 = Zpos v * 2 ^ (prec - digits v)).
  { subst m0. assert (0 < 2 ^ (prec - digits v)) by (apply Z.pow_pos_nonneg; lia).
    rewrite Z2Pos.id by nia. reflexivity. }
  replace (Zpos m) with (Zpos m0 * 2 ^ n).
  2:{ rewrite Hm, Hm0, <- Z.mul_assoc, <- Z.pow_add_r by (subst n; lia).
      f_equal. f_equal. subst n. lia. }
  rewrite shr_exact by (subst n; lia).
  cbn [shr_m loc_of_shr_record round_nearest_even shr_record_of_loc].
  assert (Hdm0 : digits m0 = prec).
  { rewrite (digits_scaled m0 v (prec - digits v)); [lia|lia|exact Hm0]. }
  change (Zdigits2 (Zpos m0)) with (digits m0). rewrite Hdm0.
  rewrite fexp_normal by (unfold prec in *; subst n; lia).
  replace (prec + (- k + n) - prec - (- k + n)) with 0 by lia.
  cbn [shr shr_m].
  replace (- k + n) with (digits v - prec) by (subst n; lia).
  destruct (Z.leb_spec (digits v - prec) (emax - prec)); [|unfold emax, prec in *; lia].
  reflexivity.
Qed.

Lemma pos_iter_xO (m d : positive) :
  Zpos (Pos.iter xO m d) = Zpos m * 2 ^ Zpos d.
Proof.
  induction d as [|d IH] using Pos.peano_ind.
  - cbn [Pos.iter]. rewrite Pos2Z.inj_xO. change (2 ^ 1) with 2. lia.
  - rewrite Pos.iter_succ, Pos2Z.inj_xO, IH, Pos2Z.inj_succ, Z.pow_succ_r by lia.
    lia.
Qed.

Lemma shl_align_fst (m : positive) e e' :
  e' <= e -> Zpos (fst (shl_align m e e')) = Zpos m * 2 ^ (e - e').
Proof.
  intros Hle. unfold shl_align.
  destruct (e' - e) as [|d|d] eqn:Hd; cbn [fst].
  - replace (e - e') with 0 by lia. rewrite Z.pow_0_r. lia.
  - lia.
  - rewrite pos_iter_xO. f_equal. f_equal. lia.
Qed.

Lemma shl_align_snd (m : positive) e e' :
  e' <= e -> snd (shl_align m e e') = e'.
Proof.
  intros Hle. unfold shl_align.
  destruct (e' - e) as [|d|d] eqn:Hd; cbn [snd]; lia.
Qed.

Lemma shl_align_ge (m : positive) e e' :
  e <= e' -> shl_align m e e' = (m, e).
Proof.
  intros Hle. unfold shl_align.
  destruct (e' - e) as [|d|d] eqn:Hd; try reflexivity. lia.
Qed.

Lemma binary_round_exact s (m v : positive) k :
  digits v <= prec -> 0 <= k ->
  Zpos m = Zpos v * 2 ^ k ->
  binary_round prec emax s m (- k) = normal s v.
Proof.
  intros Hd Hk Hm. pose proof (digits_pos v) as Hp.
  unfold binary_round.
  change (Zpos (digits2_pos m)) with (digits m).
  rewrite (digits_scaled m v k Hk Hm).
  rewrite fexp_normal by (unfold prec in *; lia).
  replace (digits v + k + - k - prec) with (digits v - prec) by lia.
  destruct (Z.le_gt_cases (- k) (digits v - prec)) as [Hc|Hc].
  - rewrite shl_align_ge by exact Hc.
    apply binary_round_aux_exact; [exact Hd|lia|exact Hm].
  - pose proof (shl_align_fst m (- k) (digits v - prec) ltac:(lia)) as Hf.
    pose proof (shl_align_snd m (- k) (digits v - prec) ltac:(lia)) as Hs.
    destruct (shl_align m (- k) (digits v - prec)) as [mz ez].
    cbn [fst snd] in Hf, Hs. subst ez.
    replace (digits v - prec) with (- (prec - digits v)) by lia.
    apply binary_round_aux_exact; [exact Hd|lia|].
    rewrite Hf, Hm, <- Z.mul_assoc, <- Z.pow_add_r by lia.
    f_equal. f_equal. lia.
Qed.

Lemma digits_le_prec (v : positive) : Zpos v < 2 ^ prec -> digits v <= prec.
Proof.
  intros Hv. pose proof (digits_bounds v) as [Blo _].
  destruct (Z.le_gt_cases (digits v) prec) as [H|H]; [exact H|].
  assert (2 ^ prec <= 2 ^ (digits v - 1)) by (apply Z.pow_le_mono_r; unfold prec in *; lia).
  lia.
Qed.

(** Normalising an integer multiple of a power of two *)
Lemma binary_normalize_exact (z : Z) k :
  0 <= k -> Z.abs z < 2 ^ prec ->
  binary_normalize prec emax (z * 2 ^ k) (- k) false = convert z.
Proof.
  intros Hk Hz. unfold convert.
  assert (H2k : 0 < 2 ^ k) by (apply Z.pow_pos_nonneg; lia).
  destruct z as [|v|v].
  - reflexivity.
  - destruct (Zpos v * 2 ^ k) as [|m|m] eqn:Hm; try lia.
    cbn [binary_normalize].
    rewrite (binary_round_exact false m v k); [|apply digits_le_prec; lia|lia|lia].
    change 0 with (- 0).
    rewrite (binary_round_exact false v v 0); [reflexivity|apply digits_le_prec; lia|lia|].
    rewrite Z.pow_0_r. lia.
  - destruct (Zneg v * 2 ^ k) as [|m|m] eqn:Hm; try lia.
    cbn [binary_normalize].
    rewrite (binary_round_exact true m v k); [|apply digits_le_prec; lia|lia|lia].
    change 0 with (- 0).
    rewrite (binary_round_exact true v v 0); [reflexivity|apply digits_le_prec; lia|lia|].
    rewrite Z.pow_0_r. lia.
Qed.

Lemma convert_pos (v : positive) :
  Zpos v < 2 ^ prec -> convert (Zpos v) = normal false v.
Proof.
  intros Hv. unfold convert. cbn [binary_normalize]. change 0 with (- 0).
  apply binary_round_exact; [apply digits_le_prec; exact Hv|lia|].
  rewrite Z.pow_0_r. lia.
Qed.

Lemma convert_neg (v : positive) :
  Zpos v < 2 ^ prec -> convert (Zneg v) = normal true v.
Proof.
  intros Hv. unfold convert. cbn [binary_normalize]. change 0 with (- 0).
  apply binary_round_exact; [apply digits_le_prec; exact Hv|lia|].
  rewrite Z.pow_0_r. lia.
Qed.

Lemma convert_nonzero z :
  z <> 0 -> Z.abs z < 2 ^ prec ->
  convert z = normal (z <? 0) (Z.to_pos (Z.abs z)).
Proof.
  intros Hz Hb. destruct z as [|v|v]; [contradiction| |].
  - apply convert_pos. exact Hb.
  - apply convert_neg. exact Hb.
Qed.

(** The stored mantissa and exponent of a normal *)
Lemma normal_mantissa (v : positive) :
  digits v <= prec ->
  Zpos (Z.to_pos (Zpos v * 2 ^ (prec - digits v))) = Zpos v * 2 ^ (prec - digits v).
Proof.
  intros Hd. assert (0 < 2 ^ (prec - digits v)) by (apply Z.pow_pos_nonneg; lia).
  rewrite Z2Pos.id by nia. reflexivity.
Qed.

(** Aligned mantissas of two normals *)
Lemma aligned_sum sx sy (a b : positive) (op : Z -> Z -> Z) :
  digits a <= prec -> digits b <= prec ->
  (forall x y c, op (x * c) (y * c) = op x y * c) ->
  let ex := digits a - prec in
  let ey := digits b - prec in
  let mx := Z.to_pos (Zpos a * 2 ^ (prec - digits a)) in
  let my := Z.to_pos (Zpos b * 2 ^ (prec - digits b)) in
  let ez := Z.min ex ey in
  op (cond_Zopp sx (Zpos (fst (shl_align mx ex ez))))
     (cond_Zopp sy (Zpos (fst (shl_align my ey ez))))
  = op (cond_Zopp sx (Zpos a)) (cond_Zopp sy (Zpos b)) * 2 ^ (- ez).
Proof.
  intros Ha Hb Hop ex ey mx my ez.
  pose proof (digits_pos a). pose proof (digits_pos b).
  rewrite !shl_align_fst by (subst ez; lia).
  subst mx my. rewrite !normal_mantissa by assumption.
  rewrite <- !Z.mul_assoc, <- !Z.pow_add_r by (subst ez ex ey; lia).
  replace (prec - digits a + (ex - ez)) with (- ez) by (subst ex; lia).
  replace (prec - digits b + (ey - ez)) with (- ez) by (subst ey; lia).
  rewrite <- Hop. f_equal; destruct sx, sy; cbn [cond_Zopp]; lia.
Qed.

Lemma cond_Zopp_abs z : cond_Zopp (z <? 0) (Z.abs z) = z.
Proof. destruct z; reflexivity. Qed.

Lemma convert_add a b :
  Z.abs a < 2 ^ prec -> Z.abs b < 2 ^ prec -> Z.abs (a + b) < 2 ^ prec ->
  SFadd prec emax (convert a) (convert b) = convert (a + b).
Proof.
  intros Ha Hb Hab.
  destruct (Z.eq_dec a 0) as [->|Ha0]; destruct (Z.eq_dec b 0) as [->|Hb0].
  - reflexivity.
  - rewrite Z.add_0_l. rewrite (convert_nonzero b) by assumption. reflexivity.
  - rewrite Z.add_0_r. rewrite (convert_nonzero a) by assumption. reflexivity.
  - rewrite (convert_nonzero a), (convert_nonzero b) by assumption.
    unfold normal. cbn [SFadd].
    assert (Hda : digits (Z.to_pos (Z.abs a)) <= prec) by (apply digits_le_prec; lia).
    assert (Hdb : digits (Z.to_pos (Z.abs b)) <= prec) by (apply digits_le_prec; lia).
    rewrite (aligned_sum _ _ _ _ Z.add Hda Hdb) by (intros; lia).
    rewrite !Z2Pos.id by lia. rewrite !cond_Zopp_abs.
    pose proof (digits_pos (Z.to_pos (Z.abs a))). pose proof (digits_pos (Z.to_pos (Z.abs b))).
    set (ez := Z.min _ _).
    replace ez with (- - ez) at 2 by lia.
    apply binary_normalize_exact; [subst ez; lia|exact Hab].
Qed.

Lemma convert_sub a b :
  Z.abs a < 2 ^ prec -> Z.abs b < 2 ^ prec -> Z.abs (a - b) < 2 ^ prec ->
  SFsub prec emax (convert a) (convert b) = convert (a - b).
Proof.
  intros Ha Hb Hab.
  destruct (Z.eq_dec a 0) as [->|Ha0]; destruct (Z.eq_dec b 0) as [->|Hb0].
  - reflexivity.
  - rewrite Z.sub_0_l. rewrite (convert_nonzero b), (convert_nonzero (- b)) by lia.
    unfold normal. cbn [SFsub]. rewrite Z.abs_opp.
    f_equal. destruct b; try reflexivity; contradiction.
  - rewrite Z.sub_0_r. rewrite (convert_nonzero a) by assumption. reflexivity.
  - rewrite (convert_nonzero a), (convert_nonzero b) by assumption.
    unfold normal. cbn [SFsub].
    assert (Hda : digits (Z.to_pos (Z.abs a)) <= prec) by (apply digits_le_prec; lia).
    assert (Hdb : digits (Z.to_pos (Z.abs b)) <= prec) by (apply digits_le_prec; lia).
    rewrite (aligned_sum _ _ _ _ Z.sub Hda Hdb) by (intros; lia).
    rewrite !Z2Pos.id by lia. rewrite !cond_Zopp_abs.
    pose proof (digits_pos (Z.to_pos (Z.abs a))). pose proof (digits_pos (Z.to_pos (Z.abs b))).
    set (ez := Z.min _ _).
    replace ez with (- - ez) at 2 by lia.
    apply binary_normalize_exact; [subst ez; lia|exact Hab].
Qed.

Lemma digits_lt_le (a b : positive) :
  digits a < digits b -> Zpos a < Zpos b.
Proof.
  intros H. pose proof (digits_bounds a) as [_ Ha].
  pose proof (digits_bounds b) as [Hb _].
  assert (2 ^ digits a <= 2 ^ (digits b - 1))
    by (apply Z.pow_le_mono_r; pose proof (digits_pos a); lia).
  lia.
Qed.

Lemma normal_compare (a b : positive) :
  digits a <= prec -> digits b <= prec ->
  SFcompare (normal false a) (normal false b) = Some (Zpos a ?= Zpos b).
Proof.
  intros Ha Hb. unfold normal. cbn [SFcompare]. f_equal.
  destruct (Z.compare_spec (digits a - prec) (digits b - prec)) as [He|He|He].
  - change (Pos.compare_cont Eq ?x ?y) with (Zpos x ?= Zpos y).
    rewrite !normal_mantissa by assumption.
    replace (digits b) with (digits a) by lia.
    symmetry. apply Zmult_compare_compat_r.
    apply Z.lt_gt, Z.pow_pos_nonneg; lia.
  - symmetry. apply Z.compare_lt_iff. apply digits_lt_le. lia.
  - symmetry. apply Z.compare_gt_iff. apply digits_lt_le. lia.
Qed.

Lemma convert_compare a b :
  0 <= a < 2 ^ prec -> Z.abs b < 2 ^ prec ->
  SFcompare (convert a) (convert b) = Some (a ?= b).
Proof.
  intros Ha Hb.
  destruct a as [|va|va]; [| |lia]; destruct b as [|vb|vb].
  - reflexivity.
  - rewrite convert_pos by lia. reflexivity.
  - rewrite convert_neg by lia. reflexivity.
  - rewrite convert_pos by lia. reflexivity.
  - rewrite !convert_pos by lia. apply normal_compare; apply digits_le_prec; lia.
  - rewrite convert_pos, convert_neg by lia. reflexivity.
Qed.

Lemma convert_leb a b :
  0 <= a < 2 ^ prec -> Z.abs b < 2 ^ prec ->
  SFleb (convert a) (convert b) = (a <=? b).
Proof.
  intros Ha Hb. unfold SFleb. rewrite convert_compare by assumption.
  unfold Z.leb. destruct (a ?= b); reflexivity.
Qed.

Lemma digits_mul_lower (a b : positive) :
  digits a + digits b - 1 <= digits (a * b).
Proof.
  pose proof (digits_bounds a) as [Ha _]. pose proof (digits_bounds b) as [Hb _].
  pose proof (digits_bounds (a * b)) as [_ Hab].
  pose proof (digits_pos a). pose proof (digits_pos b).
  rewrite Pos2Z.inj_mul in Hab.
  assert (Hp : 2 ^ (digits a - 1 + (digits b - 1)) < 2 ^ digits (a * b)).
  { rewrite Z.pow_add_r by lia.
    assert (0 < 2 ^ (digits a - 1)) by (apply Z.pow_pos_nonneg; lia).
    assert (0 < 2 ^ (digits b - 1)) by (apply Z.pow_pos_nonneg; lia).
    nia. }
  apply Z.pow_lt_mono_r_iff in Hp; [lia|lia|].
  pose proof (digits_pos (a * b)). lia.
Qed.

Lemma convert_mul a b :
  0 <= a < 2 ^ prec -> 0 <= b < 2 ^ prec -> a * b < 2 ^ prec ->
  SFmul prec emax (convert a) (convert b) = convert (a * b).
Proof.
  intros Ha Hb Hab.
  destruct a as [|va|va]; [| |lia]; destruct b as [|vb|vb]; try lia.
  - reflexivity.
  - rewrite convert_pos by lia. reflexivity.
  - rewrite Z.mul_0_r, convert_pos by lia. reflexivity.
  - assert (Hva : Zpos va < 2 ^ prec) by lia.
    assert (Hvb : Zpos vb < 2 ^ prec) by lia.
    rewrite !convert_pos by assumption.
    change (Zpos va * Zpos vb) with (Zpos (va * vb)) in *.
    rewrite convert_pos by assumption.
    pose proof (digits_le_prec va Hva) as Hda.
    pose proof (digits_le_prec vb Hvb) as Hdb.
    unfold normal at 1 2. cbn [SFmul xorb].
    replace (digits va - prec + (digits vb - prec))
      with (- (2 * prec - digits va - digits vb)) by lia.
    apply binary_round_aux_exact.
    + apply digits_le_prec. exact Hab.
    + pose proof (digits_mul_lower va vb). unfold prec in *. lia.
    + rewrite Pos2Z.inj_mul, !normal_mantissa by assumption.
      rewrite Pos2Z.inj_mul.
      replace (2 * prec - digits va - digits vb)
        with ((prec - digits va) + (prec - digits vb)) by lia.
      rewrite Z.pow_add_r by lia. lia.
Qed.

Lemma round_nearest_even_cases m l :
  round_nearest_even m l = m
  \/ (round_nearest_even m l = m + 1 /\ round_up l).
Proof.
  unfold round_up. destruct l as [|[]]; cbn [round_nearest_even]; auto.
  destruct (Z.even m); auto.
Qed.

Lemma new_location_round_up nb r :
  0 < nb -> 0 <= r < nb -> round_up (new_location nb r) -> nb <= 2 * r.
Proof.
  intros Hnb Hr. unfold round_up, new_location, new_location_even, new_location_odd.
  destruct (Z.even nb); destruct (Z.eqb_spec r 0); intros [H|H]; try discriminate.
  - destruct (Z.compare_spec (2 * r) nb); try discriminate. lia.
  - destruct (Z.compare_spec (2 * r) nb); try discriminate. lia.
  - destruct (Z.compare_spec (2 * r + 1) nb); discriminate.
  - destruct (Z.compare_spec (2 * r + 1) nb); try discriminate. lia.
Qed.

Lemma loc_of_shr_record_of_loc m l :
  loc_of_shr_record (shr_record_of_loc m l) = l.
Proof. destruct l as [|[]]; reflexivity. Qed.

Lemma digits_53 (p : positive) :
  2 ^ 52 <= Zpos p < 2 ^ 53 -> digits p = 53.
Proof. intros H. apply digits_unique. exact H. Qed.

Lemma digits_54 (p : positive) :
  2 ^ 53 <= Zpos p < 2 ^ 54 -> digits p = 54.
Proof. intros H. apply digits_unique. exact H. Qed.

(** The first shift of [binary_round_aux] on a quotient of 53 or 54
    bits, and the rounding that follows it. *)
Lemma shr_fexp_quotient (q : positive) e loc :
  2 ^ 52 <= Zpos q < 2 ^ 54 -> -1021 <= e + 53 ->
  exists mrs E,
    shr_fexp prec emax (Zpos q) e loc = (mrs, E)
    /\ let m1 := round_nearest_even (shr_m mrs) (loc_of_shr_record mrs) in
       (E = e /\ Zpos q < 2 ^ 53
        /\ (m1 = Zpos q \/ (m1 = Zpos q + 1 /\ round_up loc)))
       \/ (E = e + 1 /\ 2 ^ 53 <= Zpos q
           /\ (m1 = Zpos q / 2
               \/ (m1 = Zpos q / 2 + 1 /\ Z.odd (Zpos q) = true))).
Proof.
  intros Hq He. unfold shr_fexp. change (Zdigits2 (Zpos q)) with (digits q).
  destruct (Z.lt_ge_cases (Zpos q) (2 ^ 53)) as [Hlt|Hge].
  - rewrite digits_53 by lia.
    rewrite fexp_normal by lia.
    replace (53 + e - prec - e) with 0 by (unfold prec; lia).
    cbn [shr]. eexists _, _. split; [reflexivity|].
    left. split; [reflexivity|]. split; [exact Hlt|].
    cbn [shr_m]. rewrite loc_of_shr_record_of_loc.
    destruct loc as [|[]]; cbn [shr_record_of_loc shr_m];
      apply round_nearest_even_cases.
  - rewrite digits_54 by lia.
    rewrite fexp_normal by lia.
    replace (54 + e - prec - e) with 1 by (unfold prec; lia).
    cbn [shr SpecFloat.iter_pos]. eexists _, _. split; [reflexivity|].
    right. split; [lia|]. split; [exact Hge|].
    destruct q as [p|p|]; [| |cbn in Hge; lia].
    + replace (Zpos p~1 / 2) with (Zpos p)
        by (apply Z.div_unique_pos with 1; lia).
      assert (Hm : shr_m (shr_1 (shr_record_of_loc (Zpos p~1) loc)) = Zpos p)
        by (destruct loc as [|[]]; reflexivity).
      rewrite Hm.
      destruct (round_nearest_even_cases (Zpos p)
                  (loc_of_shr_record
                     (shr_1 (shr_record_of_loc (Zpos p~1) loc))))
        as [H|[H _]]; [left; exact H|right; split; [exact H|reflexivity]].
    + left. replace (Zpos p~0 / 2) with (Zpos p)
        by (apply Z.div_unique_pos with 0; lia).
      destruct loc as [|[]]; reflexivity.
Qed.

(** The second shift of [binary_round_aux]: a mantissa that rounding
    carried to [2 ^ 53] is renormalised, the value is unchanged. *)
Lemma binary_round_aux_finish s (m1 : Z) E :
  2 ^ 52 <= m1 <= 2 ^ 53 -> -1021 <= E + 53 -> E <= 970 ->
  exists m e,
    (let '(mrs, e') := shr_fexp prec emax m1 E loc_Exact in
     match shr_m mrs with
     | Z0 => S754_zero s
     | Zpos m => if e' <=? emax - prec then S754_finite s m e'
                 else S754_infinity s
     | Zneg _ => S754_nan
     end) = S754_finite s m e
    /\ Z.shiftl (Zpos m) e = Z.shiftl m1 E.
Proof.
  intros Hm He1 He2. destruct m1 as [|p|p]; try lia.
  unfold shr_fexp. change (Zdigits2 (Zpos p)) with (digits p).
  destruct (Z.lt_ge_cases (Zpos p) (2 ^ 53)) as [Hlt|Hge].
  - rewrite digits_53 by lia. rewrite fexp_normal by lia.
    replace (53 + E - prec - E) with 0 by (unfold prec; lia).
    cbn [shr shr_record_of_loc shr_m].
    destruct (Z.leb_spec E (emax - prec)); [|unfold emax, prec in *; lia].
    eexists _, _. split; reflexivity.
  - assert (Hp : p = 9007199254740992%positive) by lia. subst p.
    change (digits 9007199254740992) with 54.
    rewrite fexp_normal by lia.
    replace (54 + E - prec - E) with 1 by (unfold prec; lia).
    cbn [shr SpecFloat.iter_pos shr_record_of_loc shr_1 shr_m].
    destruct (Z.leb_spec (E + 1) (emax - prec)); [|unfold emax, prec in *; lia].
    eexists _, _. split; [reflexivity|].
    rewrite Z.add_comm, <- Z.shiftl_shiftl by lia. reflexivity.
Qed.

(** The integer quotient survives rounding to nearest: rounding the
    scaled quotient up never reaches the next integer. *)
Lemma floor_rounded_quotient a b t mlo m1 :
  0 < a < 2 ^ 53 -> 0 < b -> 0 <= t ->
  mlo = (a * 2 ^ t) / b -> 2 ^ 52 <= mlo ->
  (m1 = mlo \/ (m1 = mlo + 1 /\ b <= 2 * ((a * 2 ^ t) mod b))) ->
  m1 / 2 ^ t = a / b.
Proof.
  intros Ha Hb Ht Hmlo Hbig Hm1.
  assert (HP : 0 < 2 ^ t) by (apply Z.pow_pos_nonneg; lia).
  set (P := 2 ^ t) in *.
  assert (Hk : mlo / P = a / b).
  { subst mlo. rewrite Z.div_div by lia.
    apply Z.div_mul_cancel_r; lia. }
  destruct Hm1 as [->|[-> Hup]]; [exact Hk|].
  set (k := a / b) in *.
  pose proof (Z.div_mod mlo P ltac:(lia)) as Hdm.
  pose proof (Z.mod_pos_bound mlo P HP) as Hj.
  rewrite Hk in Hdm. set (j := mlo mod P) in *.
  destruct (Z.lt_ge_cases (j + 1) P) as [Hlt|Hge].
  - symmetry. apply Z.div_unique_pos with (j + 1); lia.
  - exfalso. assert (Hj1 : mlo + 1 = P * (k + 1)) by lia.
    pose proof (Z.div_mod (a * P) b ltac:(lia)) as HN.
    pose proof (Z.mod_pos_bound (a * P) b Hb) as HR.
    rewrite <- Hmlo in HN. set (R := (a * P) mod b) in *.
    pose proof (Z.div_mod a b ltac:(lia)) as Ha'.
    pose proof (Z.mod_pos_bound a b Hb) as Hr0.
    fold k in Ha'. set (r0 := a mod b) in *.
    set (u := b - r0).
    assert (Hu : 1 <= u) by (subst u; lia).
    assert (HPu : P * u = b - R) by (subst u; nia).
    assert (Hb2 : 2 * (P * u) <= b) by lia.
    assert (Ha2 : a = b * (k + 1) - u) by (subst u; lia).
    assert (0 <= k) by (subst k; apply Z.div_pos; lia).
    assert (H1 : 2 * (P * u) * (k + 1) <= b * (k + 1)) by nia.
    assert (H2 : 2 * (P * u) * (k + 1) = u * (2 * (mlo + 1))) by nia.
    assert (H3 : u * (2 ^ 53 + 1) <= u * (2 * (mlo + 1) - 1)) by nia.
    nia.
Qed.

(** The same after the one-bit shift of a 54-bit quotient. *)
Lemma floor_rounded_quotient_shifted a b t q m1 :
  0 < a < 2 ^ 53 -> 0 < b -> 0 <= t ->
  q = (a * 2 ^ (t + 1)) / b -> 2 ^ 53 <= q ->
  (m1 = q / 2 \/ (m1 = q / 2 + 1 /\ Z.odd q = true)) ->
  m1 / 2 ^ t = a / b.
Proof.
  intros Ha Hb Ht Hq Hbig Hm1.
  assert (HP : 0 < 2 ^ t) by (apply Z.pow_pos_nonneg; lia).
  assert (Hmlo : q / 2 = (a * 2 ^ t) / b).
  { subst q. rewrite Z.pow_add_r, Z.pow_1_r by lia.
    rewrite Z.div_div by lia. rewrite Z.mul_assoc.
    apply Z.div_mul_cancel_r; lia. }
  apply (floor_rounded_quotient a b t (q / 2) m1); try assumption.
  - pose proof (Z.div_mod q 2 ltac:(lia)).
    pose proof (Z.mod_pos_bound q 2 ltac:(lia)). lia.
  - destruct Hm1 as [H|[H Hodd]]; [left; exact H|right; split; [exact H|]].
    pose proof (Z.div_mod (a * 2 ^ (t + 1)) b ltac:(lia)) as HN.
    pose proof (Z.mod_pos_bound (a * 2 ^ (t + 1)) b Hb) as HR.
    rewrite <- Hq in HN.
    pose proof (Z.div_mod (a * 2 ^ t) b ltac:(lia)) as HN'.
    pose proof (Z.mod_pos_bound (a * 2 ^ t) b Hb) as HR'.
    rewrite <- Hmlo in HN'.
    set (R2 := (a * 2 ^ (t + 1)) mod b) in *.
    set (R := (a * 2 ^ t) mod b) in *.
    rewrite Z.pow_add_r, Z.pow_1_r in HN by lia.
    pose proof (Z.div_mod q 2 ltac:(lia)) as Hq2.
    rewrite Zmod_odd, Hodd in Hq2.
    set (h := q / 2) in *. set (N := a * 2 ^ t) in *.
    assert (HN2 : N * 2 = b * (2 * h + 1) + R2) by (rewrite <- Hq2; lia).
    nia.
Qed.

Lemma SFdiv_core_binary_normal (A B : positive) ea eb :
  digits A = 53 -> digits B = 53 -> -1021 <= ea - eb ->
  SFdiv_core_binary prec emax (Zpos A) ea (Zpos B) eb
  = ((Zpos A * 2 ^ 53) / Zpos B, ea - eb - 53,
     new_location (Zpos B) ((Zpos A * 2 ^ 53) mod Zpos B)).
Proof.
  intros HA HB He. unfold SFdiv_core_binary.
  change (Zdigits2 (Zpos A)) with (digits A).
  change (Zdigits2 (Zpos B)) with (digits B).
  rewrite HA, HB.
  replace (53 + ea - (53 + eb)) with (ea - eb) by lia.
  rewrite fexp_normal by lia.
  replace (Z.min (ea - eb - prec) (ea - eb)) with (ea - eb - 53)
    by (unfold prec; lia).
  replace (ea - eb - (ea - eb - 53)) with 53 by lia.
  rewrite Z.shiftl_mul_pow2 by lia.
  unfold Z.div, Z.modulo.
  destruct (Z.div_eucl (Zpos A * 2 ^ 53) (Zpos B)) as [q r].
  reflexivity.
Qed.

Lemma normal_mantissa_digits (v : positive) :
  digits v <= prec ->
  digits (Z.to_pos (Zpos v * 2 ^ (prec - digits v))) = 53.
Proof.
  intros Hd. rewrite digits_mul_pow2 by lia. unfold prec. lia.
Qed.

Lemma normal_mantissa_bounds (v : positive) :
  digits v <= prec ->
  2 ^ 52 <= Zpos (Z.to_pos (Zpos v * 2 ^ (prec - digits v))) < 2 ^ 53.
Proof.
  intros Hd. pose proof (normal_mantissa_digits v Hd) as H.
  pose proof (digits_bounds (Z.to_pos (Zpos v * 2 ^ (prec - digits v)))) as B.
  rewrite H in B. exact B.
Qed.

(** [floor(a / b)] computed on doubles is the integer quotient, for
    integers below [2 ^ 53]. *)
Lemma convert_div_floor a b :
  0 <= a < 2 ^ 53 -> 0 < b < 2 ^ 53 ->
  floor (SFdiv prec emax (convert a) (convert b)) = Ok (a / b).
Proof.
  intros Ha Hb.
  destruct b as [|vb|vb]; try lia. rewrite (convert_pos vb) by (unfold prec; lia).
  destruct a as [|va|va]; try lia; [reflexivity|].
  rewrite (convert_pos va) by (unfold prec; lia).
  assert (Hda : digits va <= prec) by (apply digits_le_prec; unfold prec; lia).
  assert (Hdb : digits vb <= prec) by (apply digits_le_prec; unfold prec; lia).
  pose proof (digits_pos va) as Hpa. pose proof (digits_pos vb) as Hpb.
  unfold normal. cbn [SFdiv xorb].
  pose proof (normal_mantissa va Hda) as HA.
  pose proof (normal_mantissa vb Hdb) as HB.
  pose proof (normal_mantissa_bounds va Hda) as HAb.
  pose proof (normal_mantissa_bounds vb Hdb) as HBb.
  pose proof (normal_mantissa_digits va Hda) as HAd.
  pose proof (normal_mantissa_digits vb Hdb) as HBd.
  set (A := Z.to_pos (Zpos va * 2 ^ (prec - digits va))) in *.
  set (B := Z.to_pos (Zpos vb * 2 ^ (prec - digits vb))) in *.
  rewrite SFdiv_core_binary_normal by (unfold prec in *; lia).
  set (T := 53 + digits vb - digits va).
  assert (HT : 1 <= T) by (subst T; unfold prec in *; lia).
  replace (digits va - prec - (digits vb - prec) - 53) with (- T)
    by (subst T; unfold prec; lia).
  set (C := 2 ^ (prec - digits vb)) in *.
  assert (HC : 0 < C) by (subst C; apply Z.pow_pos_nonneg; lia).
  assert (HN : Zpos A * 2 ^ 53 = Zpos va * 2 ^ T * C).
  { rewrite HA. subst C T. rewrite <- !Z.mul_assoc, <- !Z.pow_add_r by lia.
    f_equal. f_equal. unfold prec. lia. }
  assert (H2T : 0 < 2 ^ T) by (apply Z.pow_pos_nonneg; lia).
  assert (Hq : Zpos A * 2 ^ 53 / Zpos B = Zpos va * 2 ^ T / Zpos vb).
  { rewrite HN, HB. apply Z.div_mul_cancel_r; lia. }
  assert (Hr : (Zpos A * 2 ^ 53) mod Zpos B
               = (Zpos va * 2 ^ T) mod Zpos vb * C).
  { rewrite HN, HB. apply Z.mul_mod_distr_r; lia. }
  assert (Hqlo : 2 ^ 52 <= Zpos A * 2 ^ 53 / Zpos B)
    by (apply Z.div_le_lower_bound; lia).
  assert (Hqhi : Zpos A * 2 ^ 53 / Zpos B < 2 ^ 54)
    by (apply Z.div_lt_upper_bound; lia).
  rewrite Hr. rewrite Hq in *.
  set (q := Zpos va * 2 ^ T / Zpos vb) in *.
  set (R := (Zpos va * 2 ^ T) mod Zpos vb) in *.
  assert (HR : 0 <= R < Zpos vb) by (subst R; apply Z.mod_pos_bound; lia).
  destruct q as [|qp|qp] eqn:Eq; try lia.
  unfold binary_round_aux.
  destruct (shr_fexp_quotient qp (- T) (new_location (Zpos B) (R * C)))
    as (mrs & E & Hshr & Hcases); [lia|subst T; unfold prec in *; lia|].
  rewrite Hshr.
  set (m1 := round_nearest_even (shr_m mrs) (loc_of_shr_record mrs)) in *.
  assert (Hm1 : 2 ^ 52 <= m1 <= 2 ^ 53).
  { destruct Hcases as [(_ & Hlt & [->|[-> _]])|(_ & Hge & [->|[-> _]])];
      try lia.
    - pose proof (Z.div_mod (Zpos qp) 2 ltac:(lia)).
      pose proof (Z.mod_pos_bound (Zpos qp) 2 ltac:(lia)). lia.
    - pose proof (Z.div_mod (Zpos qp) 2 ltac:(lia)).
      pose proof (Z.mod_pos_bound (Zpos qp) 2 ltac:(lia)). lia. }
  assert (HE : - T <= E <= - T + 1) by (destruct Hcases as [(-> & _)|(-> & _)]; lia).
  destruct (binary_round_aux_finish false m1 E Hm1) as (m & e & Hfin & Hfl);
    [subst T; unfold prec in *; lia|lia|].
  rewrite Hfin. cbn [floor cond_Zopp]. rewrite Hfl. f_equal.
  rewrite Z.shiftl_div_pow2 by lia.
  destruct Hcases as [(-> & Hlt & Hc)|(-> & Hge & Hc)].
  - rewrite Z.opp_involutive.
    apply (floor_rounded_quotient (Zpos va) (Zpos vb) T (Zpos qp) m1);
      try lia.
    destruct Hc as [Hc|[Hc Hup]]; [left; exact Hc|right; split; [exact Hc|]].
    apply new_location_round_up in Hup; [|lia|nia].
    fold R. rewrite HB in Hup. fold C in Hup. nia.
  - replace (- (- T + 1)) with (T - 1) by lia.
    apply (floor_rounded_quotient_shifted (Zpos va) (Zpos vb) (T - 1)
             (Zpos qp) m1); try lia.
    + replace (T - 1 + 1) with T by lia. lia.
    + exact Hc.
Qed.

End FloatFacts.

(** ** Termination and the empty interval *)

Lemma well_formed_true low high step_type step_size repr_type :
  well_formed low high step_type step_size repr_type = true ->
  (exists t, step_type = VStepType t)
  /\ 0 <= low /\ low < high /\ 0 < step_size
  /\ (step_type = VStepType GEOMETRIC -> 1 < step_size /\ 0 < low).
Proof.
  unfold well_formed. intros H.
  repeat (apply andb_prop in H; destruct H as [H ?]).
  split; [destruct step_type; try discriminate; eauto|].
  split; [lia|]. split; [lia|]. split; [lia|].
  intros Hg. destruct (decide (step_type = VStepType GEOMETRIC));
    [|contradiction].
  match goal with
  | Hc : _ && _ = true |- _ => apply andb_prop in Hc; destruct Hc
  end.
  destruct (Z.eqb_spec low 0); [discriminate|]. lia.
Qed.

(** On well-formed arguments every turn of the loop moves [value_cur]
    up by at least one, so [high - low + 1] turns are enough. *)
Lemma interval_loop_well_formed low high step_type step_size repr_type
    is_neg :
  well_formed low high step_type step_size repr_type = true ->
  exists l,
    interval_loop (Z.to_nat (high - low + 1)) high is_neg step_type step_size
      [] low = Some l.
Proof.
  intros Hw. apply well_formed_true in Hw.
  destruct Hw as ([t ->] & Hlow & Hlt & Hstep & Hgeo).
  apply (interval_loop_terminates high is_neg (VStepType t) step_size low).
  - intros v Hv Hvh. unfold next_value.
    destruct t; repeat case_decide; try congruence; [lia|].
    destruct Hgeo as [Hs Hl]; [reflexivity|]. nia.
  - lia.
  - lia.
Qed.



(** C10: when [low] strictly exceeds [high], a configuration that
    [debug] rejects, [interval_list] returns the empty list: the loop
    condition fails on entry, whatever the fuel. *)
Theorem interval_list_empty_when_low_exceeds_high name low high step_type
    step_size repr_type is_negative fuel :
  high < low ->
  interval_list fuel
    (DiscreteParameter name low high step_type step_size repr_type
       is_negative) = Ok (Some [])
  /\ debug (DiscreteParameter name low high step_type step_size repr_type
              is_negative) <> Ok tt.
Proof.
  intros Hlt. split.
  - rewrite interval_list_constructed. f_equal.
    apply interval_loop_exit. exact Hlt.
  - intros Hd. apply debug_constructed_ok in Hd. destruct Hd as [_ Hw].
    apply well_formed_true in Hw. lia.
Qed.

Lemma interval_list_empty_when_low_exceeds_high_witness :
  3 < 5
  /\ interval_list 0
       (DiscreteParameter "p" 5 3 default_step_type default_step_size
          default_repr_type default_is_negative) = Ok (Some [])
  /\ debug
       (DiscreteParameter "p" 5 3 default_step_type default_step_size
          default_repr_type default_is_negative) <> Ok tt.
Proof.
  split; [lia|].
  apply (interval_list_empty_when_low_exceeds_high "p" 5 3 default_step_type
           default_step_size default_repr_type default_is_negative 0).
  lia.
Defined.

(** ** Bounds and steps that are ints or floats *)

(** On integers the comparisons of the general embedding are those of
    [Z]. *)
Lemma general_leb_ints a b :
  General.leb (General.Int a) (General.Int b) = (a <=? b).
Proof.
  unfold General.leb, General.compare, Z.leb. destruct (a ?= b); reflexivity.
Qed.

Lemma general_ltb_ints a b :
  General.ltb (General.Int a) (General.Int b) = (a <? b).
Proof.
  unfold General.ltb, General.compare, Z.ltb. destruct (a ?= b); reflexivity.
Qed.

Lemma general_geb_ints a b :
  General.geb (General.Int a) (General.Int b) = (a >=? b).
Proof.
  unfold General.geb, General.compare, Z.geb. destruct (a ?= b); reflexivity.
Qed.

Lemma general_gtb_ints a b :
  General.gtb (General.Int a) (General.Int b) = (a >? b).
Proof.
  unfold General.gtb, General.compare, Z.gtb. destruct (a ?= b); reflexivity.
Qed.

Lemma general_eqb_ints a b :
  General.eqb (General.Int a) (General.Int b) = (a =? b).
Proof.
  unfold General.eqb, General.compare.
  destruct (Z.compare_spec a b), (Z.eqb_spec a b); (reflexivity || lia).
Qed.

(** On integer bounds and step the general loop is the integer loop. *)
Lemma general_interval_loop_ints fuel high is_neg step_type step_size :
  forall values value_cur,
    General.interval_loop fuel (General.Int high) is_neg step_type
      (General.Int step_size) (General.Int <$> values)
      (General.Int value_cur)
    = Ok (fmap (M := list) General.Int
            <$> interval_loop fuel high is_neg step_type step_size values
                  value_cur).
Proof.
  induction fuel as [|fuel IH]; intros values value_cur;
    cbn [General.interval_loop interval_loop]; rewrite general_leb_ints;
    destruct (value_cur <=? high); try reflexivity.
  destruct is_neg; repeat case_decide;
    cbn [General.add General.mul General.neg]; rewrite <- IH;
    rewrite fmap_app; reflexivity.
Qed.

(** On a parameter constructed with integer bounds and step, the
    general [interval_list] is the integer one. *)
Lemma general_interval_list_ints name low high step_type step_size
    repr_type is_negative fuel :
  General.interval_list fuel
    (General.of_ints name low high step_type step_size repr_type
       is_negative)
  = match
      interval_list fuel
        (DiscreteParameter name low high step_type step_size repr_type
           is_negative)
    with
    | Ok o => Ok (fmap (M := list) General.Int <$> o)
    | Raised e => Raised e
    end.
Proof.
  rewrite interval_list_constructed.
  apply (general_interval_loop_ints fuel high is_negative step_type
           step_size [] low).
Qed.

(** On a parameter constructed with integer bounds and step, the
    general [debug] raises what the integer one raises. *)
Lemma general_debug_ints name low high step_type step_size repr_type
    is_negative :
  raised_class
    (General.debug
       (General.of_ints name low high step_type step_size repr_type
          is_negative))
  = raised_class
      (debug
         (DiscreteParameter name low high step_type step_size repr_type
            is_negative)).
Proof.
  rewrite debug_constructed_class.
  unfold General.debug, General.of_ints, well_formed.
  cbn [General.name General.low General.high General.step_type
       General.step_size General.repr_type].
  rewrite !general_ltb_ints, !general_geb_ints, !general_leb_ints,
    !general_gtb_ints, !general_eqb_ints.
  destruct name as [|c name']; [reflexivity|].
  replace (Parameter_debug
             (Parameter___init__ ∅ (VStr (String c name'))
                (VParameterType DISCRETE)))
    with (Ok tt : result unit) by reflexivity.
  cbn [bind].
  destruct (is_StepType step_type); [|reflexivity].
  destruct (is_DiscreteRepresentationType repr_type); [|reflexivity].
  cbn [negb andb].
  destruct (Z.ltb_spec low 0), (Z.leb_spec 0 low); try lia; [reflexivity|].
  destruct (Z.geb_spec low high), (Z.ltb_spec low high); try lia;
    [reflexivity|].
  destruct (Z.leb_spec step_size 0), (Z.ltb_spec 0 step_size); try lia;
    [reflexivity|].
  cbn [andb].
  destruct (decide (step_type = VStepType GEOMETRIC)) as [Hg|Hg].
  - rewrite bool_decide_eq_true_2 by exact Hg. cbn [andb].
    destruct (Z.leb_spec step_size 1), (Z.ltb_spec 1 step_size); try lia;
      [reflexivity|].
    destruct (Z.eqb_spec low 0); [reflexivity|].
    destruct (Z.eqb_spec high 0); [lia|].
    destruct (Z.gtb_spec low 0); [|lia].
    destruct (Z.ltb_spec high 0); [lia|]. reflexivity.
  - rewrite bool_decide_eq_false_2 by exact Hg. reflexivity.
Qed.



(** X22: [debug] does not reject a NaN.  With [low = float("nan")],
    any upper bound, a step that is not [<= 0] and the default step
    type, every comparison [debug] makes is false and the parameter is
    accepted; [interval_list()] returns the empty list, its loop
    condition being false on entry. *)
Theorem debug_accepts_nan (name : string) (high step_size : General.number)
    (repr_type : DiscreteRepresentationType) (is_negative : bool)
    (fuel : nat) :
  name <> "" ->
  General.leb step_size (General.Int 0) = false ->
  General.debug
    (General.DiscreteParameter name (General.Flt S754_nan) high
       default_step_type step_size (VReprType repr_type) is_negative)
  = Ok tt
  /\ General.interval_list fuel
       (General.DiscreteParameter name (General.Flt S754_nan) high
          default_step_type step_size (VReprType repr_type) is_negative)
     = Ok (Some []).
Proof.
  intros Hn Hstep.
  assert (Hcmp : General.compare (General.Flt S754_nan) high = None)
    by (destruct high; reflexivity).
  split.
  - unfold General.debug.
    cbn [General.name General.low General.high General.step_type
         General.step_size General.repr_type].
    destruct name as [|c name']; [contradiction|].
    replace (Parameter_debug
               (Parameter___init__ ∅ (VStr (String c name'))
                  (VParameterType DISCRETE)))
      with (Ok tt : result unit) by reflexivity.
    cbn [bind]. unfold General.geb. rewrite Hcmp, Hstep. reflexivity.
  - unfold General.interval_list.
    cbn [General.low General.high General.step_type General.step_size
         General.is_negative].
    destruct fuel; cbn [General.interval_loop]; unfold General.leb;
      rewrite Hcmp; reflexivity.
Qed.

Lemma debug_accepts_nan_witness :
  "p" <> ""
  /\ General.leb (General.Int 1) (General.Int 0) = false
  /\ General.debug
       (General.DiscreteParameter "p" (General.Flt S754_nan)
          (General.Int 10) default_step_type (General.Int 1)
          (VReprType DEFAULT) false)
     = Ok tt
  /\ General.interval_list 0
       (General.DiscreteParameter "p" (General.Flt S754_nan)
          (General.Int 10) default_step_type (General.Int 1)
          (VReprType DEFAULT) false)
     = Ok (Some []).
Proof.
  split; [discriminate|]. split; [reflexivity|].
  apply (debug_accepts_nan "p" (General.Int 10) (General.Int 1) DEFAULT
           false 0).
  - discriminate.
  - reflexivity.
Defined.

(** X23: a float step can drop the upper bound.  [debug] accepts the
    parameter [tenths], with [low=0], [high=0.3] and [step_size=0.1];
    its [interval_list()] is [[0, 0.1, 0.2]], returned after three
    turns: the next value, [0.2 + 0.1], is the double
    [0.30000000000000004], above the double [0.3], so [high] is left
    out.  The three doubles are the nearest to 1/10, 2/10 and 3/10:
    their distance to the fraction is at most half a unit in the last
    place. *)
Theorem tenths_interval_list_drops_high :
  General.debug tenths = Ok tt
  /\ General.interval_list 3 tenths
     = Ok (Some [General.Int 0; General.Flt General.tenth;
                 General.Flt General.fifth])
  /\ General.interval_list 2 tenths = Ok None
  /\ General.add (General.Flt General.fifth) (General.Flt General.tenth)
     = Ok (General.Flt (S754_finite false 5404319552844596 (-54)))
  /\ General.gtb (General.Flt (S754_finite false 5404319552844596 (-54)))
       (General.Flt General.three_tenths) = true
  /\ Z.abs (10 * 7205759403792794 - 1 * 2 ^ 56) <= 5
  /\ Z.abs (10 * 7205759403792794 - 2 * 2 ^ 55) <= 5
  /\ Z.abs (10 * 5404319552844595 - 3 * 2 ^ 54) <= 5.
Proof. repeat split; vm_compute; (reflexivity || discriminate). Qed.

(** ** [map_to_interval] *)

(** Whatever the arguments of the constructor, the read of [is_neg]
    fails before [map_to_interval] can return. *)
Lemma map_to_interval_constructed name low high step_type step_size
    repr_type is_negative (n : N) :
  map_to_interval
    (DiscreteParameter name low high step_type step_size repr_type
       is_negative) n = raise AttributeError "is_neg".
Proof.
  unfold map_to_interval. rewrite !getattr_step_type. cbn [bind].
  repeat case_decide;
    rewrite ?getattr_step_type, ?attr_int_low, ?attr_int_step_size;
    cbn [bind]; repeat case_decide;
    rewrite ?attr_int_low, ?attr_int_step_size; cbn [bind];
    rewrite getattr_is_neg; reflexivity.
Qed.

(** The same on the instances the constructor builds from arguments of
    any type. *)
Lemma getattr_is_neg_any name low high step_type step_size repr_type
    is_negative :
  getattr
    (DiscreteParameter___init__ name low high step_type step_size repr_type
       is_negative) "is_neg" = raise AttributeError "is_neg".
Proof. reflexivity. Qed.

Lemma getattr_step_type_any name low high step_type step_size repr_type
    is_negative :
  getattr
    (DiscreteParameter___init__ name low high step_type step_size repr_type
       is_negative) "step_type" = Ok step_type.
Proof. reflexivity. Qed.

Lemma attr_int_low_any name low high step_type step_size repr_type
    is_negative :
  attr_int
    (DiscreteParameter___init__ name low high step_type step_size repr_type
       is_negative) "low" = int_of low.
Proof. reflexivity. Qed.

Lemma attr_int_step_size_any name low high step_type step_size repr_type
    is_negative :
  attr_int
    (DiscreteParameter___init__ name low high step_type step_size repr_type
       is_negative) "step_size" = int_of step_size.
Proof. reflexivity. Qed.

(** C8, as the code behaves: on every instance the constructor builds,
    whatever the types and the validity of its arguments, and for every
    index [n >= 0], [map_to_interval] returns no value: the constructor
    assigns [is_negative] and never [is_neg], and the method reads
    [is_neg] on every path to its [return] statements.  When [low] and
    [step_size] are integers, nothing fails before that read, and the
    exception is the [AttributeError] on [is_neg]. *)
Theorem map_to_interval_never_returns
    (name low high step_type step_size repr_type is_negative : value)
    (l s : Z) (n : N) :
  (forall v,
     ~ returns
         (map_to_interval
            (DiscreteParameter___init__ name low high step_type step_size
               repr_type is_negative) n) v)
  /\ (DiscreteParameter___init__ name low high step_type step_size repr_type
        is_negative) !! "is_neg" = None
  /\ (DiscreteParameter___init__ name low high step_type step_size repr_type
        is_negative) !! "is_negative" = Some is_negative
  /\ map_to_interval
       (DiscreteParameter___init__ name (VInt l) high step_type (VInt s)
          repr_type is_negative) n = raise AttributeError "is_neg".
Proof.
  split; [|split; [reflexivity|split; [reflexivity|]]].
  - intros v Hv. red in Hv. unfold map_to_interval in Hv.
    rewrite getattr_step_type_any in Hv. cbn [bind] in Hv.
    rewrite getattr_is_neg_any in Hv.
    match type of Hv with
    | bind ?c _ = _ => destruct c; cbn [bind] in Hv; discriminate
    end.
  - unfold map_to_interval. rewrite !getattr_step_type_any. cbn [bind].
    repeat case_decide;
      rewrite ?getattr_step_type_any, ?attr_int_low_any,
        ?attr_int_step_size_any;
      cbn [bind int_of]; repeat case_decide;
      rewrite ?attr_int_low_any, ?attr_int_step_size_any; cbn [bind int_of];
      rewrite getattr_is_neg_any; reflexivity.
Qed.

(** C8, as stated, fails on a parameter whose [low] is no number: on
    [unbounded] the sum [self.low + (self.step_size * n)] raises
    [TypeError] before [is_neg] is read, so the exception is not the
    attribute-lookup error. *)
Lemma unbounded_map_to_interval_raises_TypeError :
  raises (map_to_interval unbounded 0) TypeError
  /\ ~ raises (map_to_interval unbounded 0) AttributeError.
Proof.
  split; [vm_compute; reflexivity|]. unfold raises. vm_compute. discriminate.
Qed.

(** ** What [debug] raises *)

Lemma debug_raises_Warning name low high step_type step_size repr_type
    is_negative :
  name <> "" ->
  well_formed low high step_type step_size repr_type = false ->
  raises
    (debug (DiscreteParameter name low high step_type step_size repr_type
              is_negative)) Warning.
Proof.
  intros Hn Hw. unfold raises. rewrite debug_constructed_class, Hw.
  destruct name; [contradiction|reflexivity].
Qed.

Lemma not_well_formed low high step_type step_size repr_type :
  low < 0 \/ high <= low \/ step_size <= 0
  \/ (step_type = VStepType GEOMETRIC /\ (step_size <= 1 \/ low = 0)) ->
  well_formed low high step_type step_size repr_type = false.
Proof.
  intros H.
  destruct (well_formed low high step_type step_size repr_type) eqn:Hw;
    [|reflexivity].
  apply well_formed_true in Hw. destruct Hw as (_ & ? & ? & ? & Hg).
  destruct H as [?|[?|[?|[Hs ?]]]]; try lia.
  specialize (Hg Hs). lia.
Qed.

(** C6, as the code behaves: for each of the six invalid configurations
    [debug] raises, and the exception is an instance of the builtin
    class [Warning]; the arguments the configuration leaves open are
    arbitrary. *)
Theorem debug_raises_Warning_on_invalid (name : string) (low high : Z)
    (step_type : value) (step_size : Z) (repr_type : value)
    (is_negative : bool) :
  name <> "" ->
  raises
    (debug (DiscreteParameter name (-1) 10 step_type step_size repr_type
              is_negative)) Warning
  /\ raises
       (debug (DiscreteParameter name 5 3 step_type step_size repr_type
                 is_negative)) Warning
  /\ raises
       (debug (DiscreteParameter name low high step_type 0 repr_type
                 is_negative)) Warning
  /\ raises
       (debug (DiscreteParameter name low high (VStepType GEOMETRIC) 1
                 repr_type is_negative)) Warning
  /\ raises
       (debug (DiscreteParameter name (-4) 8 (VStepType GEOMETRIC) step_size
                 repr_type is_negative)) Warning
  /\ raises
       (debug (DiscreteParameter name 0 8 (VStepType GEOMETRIC) step_size
                 repr_type is_negative)) Warning.
Proof.
  intros Hn.
  repeat split; apply debug_raises_Warning; try exact Hn;
    apply not_well_formed.
  - left. lia.
  - right. left. lia.
  - right. right. left. lia.
  - right. right. right. split; [reflexivity|left; lia].
  - left. lia.
  - right. right. right. split; [reflexivity|right; reflexivity].
Qed.

Lemma debug_raises_Warning_on_invalid_witness :
  "p" <> ""
  /\ raises
       (debug (DiscreteParameter "p" (-1) 10 default_step_type
                 default_step_size default_repr_type default_is_negative))
       Warning
  /\ raises
       (debug (DiscreteParameter "p" 5 3 default_step_type
                 default_step_size default_repr_type default_is_negative))
       Warning
  /\ raises
       (debug (DiscreteParameter "p" 0 10 default_step_type 0
                 default_repr_type default_is_negative)) Warning
  /\ raises
       (debug (DiscreteParameter "p" 0 10 (VStepType GEOMETRIC) 1
                 default_repr_type default_is_negative)) Warning
  /\ raises
       (debug (DiscreteParameter "p" (-4) 8 (VStepType GEOMETRIC)
                 default_step_size default_repr_type default_is_negative))
       Warning
  /\ raises
       (debug (DiscreteParameter "p" 0 8 (VStepType GEOMETRIC)
                 default_step_size default_repr_type default_is_negative))
       Warning.
Proof.
  split; [discriminate|].
  apply (debug_raises_Warning_on_invalid "p" 0 10 default_step_type
           default_step_size default_repr_type default_is_negative).
  discriminate.
Defined.

(** C6, as stated, fails: on [low=-1, high=10] the exception [debug]
    raises is a [Warning], not a [ValidationError]. *)
Lemma debug_negative_low_not_ValidationError :
  ~ raises
      (debug (DiscreteParameter "p" (-1) 10 default_step_type
                default_step_size default_repr_type default_is_negative))
      ValidationError.
Proof. unfold raises. vm_compute. discriminate. Qed.

(** ** The scenarios of the specification, run on the code *)

Section Scenarios.

Variable log : Float.float -> Float.float -> result Float.float.
Variable float_pow : Float.float -> Z -> result Float.float.

(** C2: on the parameter [batch], which [debug] accepts,
    [interval_list()] returns [[1, 2, 4, 8, 16, 32, 64, 128]]; but
    [max_n()] does not return 7, it raises [NameError] on the unbound
    name [lower_bound], and [map_to_interval(3)] does not return 8, it
    raises [AttributeError] on [is_neg]. *)
Theorem batch_scenario :
  debug batch = Ok tt
  /\ interval_list 8 batch = Ok (Some [1; 2; 4; 8; 16; 32; 64; 128])
  /\ max_n log float_pow batch = raise NameError "lower_bound"
  /\ map_to_interval batch 3 = raise AttributeError "is_neg".
Proof. repeat split; vm_compute; reflexivity. Qed.

(** C3: on the parameter [units], which [debug] accepts,
    [interval_list()] has 16 elements and ends at 512; but
    [map_to_interval(15)] does not return 512, it raises
    [AttributeError] on [is_neg]. *)
Theorem units_scenario :
  debug units = Ok tt
  /\ (exists l,
        interval_list 16 units = Ok (Some l)
        /\ length l = 16%nat /\ last l = Some 512)
  /\ map_to_interval units 15 = raise AttributeError "is_neg".
Proof.
  split; [vm_compute; reflexivity|]. split; [|vm_compute; reflexivity].
  eexists. split; [vm_compute; reflexivity|]. split; reflexivity.
Qed.

(** C1: on the valid parameter [units], [max_n()] is 15 and
    [interval_list()] holds an element at each index from 0 to 15 (128
    at index 3), while [map_to_interval(n)] returns no value at any of
    these indices. *)
Theorem units_map_to_interval_disagrees_with_interval_list :
  debug units = Ok tt
  /\ max_n log float_pow units = Ok (VInt 15)
  /\ exists l,
       interval_list 16 units = Ok (Some l)
       /\ l !! 3%nat = Some 128
       /\ forall n : N,
            (n <= 15)%N ->
            is_Some (l !! N.to_nat n)
            /\ map_to_interval units n = raise AttributeError "is_neg".
Proof.
  split; [vm_compute; reflexivity|]. split; [vm_compute; reflexivity|].
  eexists. split; [vm_compute; reflexivity|]. split; [reflexivity|].
  intros n Hn. split.
  - apply lookup_lt_is_Some. cbn [length]. lia.
  - apply map_to_interval_constructed.
Qed.

(** C4: [max_n()] is not the greatest index.  On the valid geometric
    parameter [batch] the greatest index whose magnitude [1 * 2 ** n]
    does not exceed 128 is 7, and [interval_list()] has 7 + 1 elements;
    [max_n()] returns no index, it raises [NameError] on the unbound
    name [lower_bound].  On the valid arithmetic parameter [wide] the
    greatest index whose magnitude [0 + (2 ** 53 + 1) * n] does not
    exceed [2 ** 53] is 0, and [interval_list()] is [[0]]; but
    [float(2 ** 53 + 1)] is [2.0 ** 53], and [max_n()] returns 1. *)
Theorem max_n_is_not_the_greatest_index :
  (debug batch = Ok tt
   /\ greatest_index GEOMETRIC 1 128 2 7
   /\ (exists l, interval_list 8 batch = Ok (Some l) /\ length l = 8%nat)
   /\ max_n log float_pow batch = raise NameError "lower_bound"
   /\ load_global "lower_bound" = raise NameError "lower_bound")
  /\ (debug wide = Ok tt
      /\ greatest_index ARITHMETIC 0 (2 ^ 53) (2 ^ 53 + 1) 0
      /\ interval_list 1 wide = Ok (Some [0])
      /\ Float.convert (2 ^ 53 + 1) = Float.convert (2 ^ 53)
      /\ max_n log float_pow wide = Ok (VInt 1)).
Proof.
  split.
  - split; [vm_compute; reflexivity|]. split.
    + split; [lia|]. split; [vm_compute; discriminate|].
      intros k Hk. cbn [magnitude].
      assert (2 ^ 8 <= 2 ^ k) by (apply Z.pow_le_mono_r; lia). lia.
    + split; [eexists; split; [vm_compute; reflexivity|reflexivity]|].
      split; vm_compute; reflexivity.
  - split; [vm_compute; reflexivity|]. split.
    + split; [lia|]. cbn [magnitude]. split; [lia|]. intros k Hk. lia.
    + repeat split; vm_compute; reflexivity.
Qed.

(** C7: on [units] constructed with [is_negative=True], which [debug]
    accepts, [interval_list()] is the list of [units] with every sign
    flipped and [max_n()] is 15 as before; but [map_to_interval(n)]
    does not return the value with its sign flipped ([-32] at index 0):
    at every index it raises [AttributeError], because it reads [is_neg]
    where the constructor assigned [is_negative]. *)
Theorem units_negative_scenario :
  debug units_negative = Ok tt
  /\ interval_list 16 units = Ok (Some units_interval)
  /\ interval_list 16 units_negative = Ok (Some (Z.opp <$> units_interval))
  /\ head (Z.opp <$> units_interval) = Some (-32)
  /\ max_n log float_pow units = Ok (VInt 15)
  /\ max_n log float_pow units_negative = Ok (VInt 15)
  /\ units_negative !! "is_negative" = Some (VBool true)
  /\ units_negative !! "is_neg" = None
  /\ forall n : N,
       map_to_interval units_negative n = raise AttributeError "is_neg"
       /\ forall v, ~ returns (map_to_interval units_negative n) v.
Proof.
  do 8 (split; [vm_compute; reflexivity|]).
  intros n.
  assert (H : map_to_interval units_negative n
              = raise AttributeError "is_neg")
    by apply map_to_interval_constructed.
  split; [exact H|]. intros v Hv. red in Hv. rewrite H in Hv. discriminate.
Qed.

End Scenarios.

(** ** [max_n] on an arithmetic interval *)

Lemma of_int_exact z :
  Z.abs z < 2 ^ 53 -> Float.of_int z = Ok (Float.convert z).
Proof.
  intros Hz. unfold Float.of_int.
  destruct (Z.eq_dec z 0) as [->|Hz0]; [reflexivity|].
  rewrite FloatFacts.convert_nonzero by (unfold Float.prec; lia).
  reflexivity.
Qed.

Lemma is_zero_convert z :
  z <> 0 -> Z.abs z < 2 ^ 53 -> Float.is_zero (Float.convert z) = false.
Proof.
  intros Hz0 Hz.
  rewrite FloatFacts.convert_nonzero by (unfold Float.prec; lia).
  reflexivity.
Qed.

Section MaxNArithmetic.

Variable log : Float.float -> Float.float -> result Float.float.
Variable float_pow : Float.float -> Z -> result Float.float.

(** Below [2 ^ 53] the arithmetic branch of [max_n] returns the integer
    quotient of [high - low] by [step_size]; its correction for roundoff
    never fires. *)
Lemma max_n_arithmetic name low high step_size repr_type is_negative :
  0 <= low -> low < high -> 0 < step_size ->
  high < 2 ^ 53 -> step_size < 2 ^ 53 ->
  max_n log float_pow
    (DiscreteParameter name low high (VStepType ARITHMETIC) step_size
       repr_type is_negative)
  = Ok (VInt ((high - low) / step_size)).
Proof.
  intros Hlow Hlt Hstep Hhigh Hss.
  set (n := (high - low) / step_size).
  assert (Hn0 : 0 <= n) by (apply Z.div_pos; lia).
  assert (Hnle : step_size * n <= high - low)
    by (apply Z.mul_div_le; lia).
  assert (Hngt : high - low < step_size * Z.succ n)
    by (apply Z.mul_succ_div_gt; lia).
  unfold max_n.
  rewrite getattr_low. cbn [bind]. unfold Float.float_ at 1.
  cbn [int_of bind]. rewrite of_int_exact by lia. cbn [bind].
  rewrite getattr_high. cbn [bind]. unfold Float.float_ at 1.
  cbn [int_of bind]. rewrite of_int_exact by lia. cbn [bind].
  rewrite getattr_step_size. cbn [bind]. unfold Float.float_ at 1.
  cbn [int_of bind]. rewrite of_int_exact by lia. cbn [bind].
  rewrite getattr_step_type. cbn [bind].
  destruct (decide (VStepType ARITHMETIC = VStepType ARITHMETIC));
    [|contradiction].
  unfold Float.truediv, Float.sub, Float.add, Float.mul, Float.leb.
  rewrite is_zero_convert by lia.
  rewrite FloatFacts.convert_sub by (unfold Float.prec; lia).
  cbn [bind].
  rewrite FloatFacts.convert_div_floor by lia. fold n. cbn [bind].
  rewrite of_int_exact by nia. cbn [bind].
  rewrite FloatFacts.convert_mul by (unfold Float.prec; nia).
  rewrite FloatFacts.convert_add by (unfold Float.prec; nia).
  rewrite FloatFacts.convert_sub by (unfold Float.prec; lia).
  rewrite FloatFacts.convert_leb by (unfold Float.prec; nia).
  destruct (Z.leb_spec (n * step_size + low) (high - step_size));
    [nia|reflexivity].
Qed.

End MaxNArithmetic.

Lemma iter_next_value_arithmetic step_size low (i : nat) :
  Nat.iter i (next_value (VStepType ARITHMETIC) step_size) low
  = low + step_size * Z.of_nat i.
Proof.
  induction i as [|i IH].
  - change (low = low + step_size * 0). lia.
  - rewrite Nat.iter_succ, IH. unfold next_value.
    destruct (decide (VStepType ARITHMETIC = VStepType ARITHMETIC));
      [|contradiction].
    rewrite Nat2Z.inj_succ. lia.
Qed.

Lemma abs_signed is_negative v : Z.abs (signed is_negative v) = Z.abs v.
Proof. unfold signed. destruct is_negative; lia. Qed.

(** The list [interval_list] returns on a well-formed arithmetic
    interval: the [(high - low) // step_size + 1] signed magnitudes. *)
Lemma interval_list_arithmetic name low high step_size repr_type
    is_negative :
  0 <= low -> low < high -> 0 < step_size ->
  interval_list (S (Z.to_nat ((high - low) / step_size)))
    (DiscreteParameter name low high (VStepType ARITHMETIC) step_size
       repr_type is_negative)
  = Ok (Some ((fun i : nat =>
                 signed is_negative (low + step_size * Z.of_nat i))
                <$> seq 0 (S (Z.to_nat ((high - low) / step_size))))).
Proof.
  intros Hlow Hlt Hstep.
  set (n := (high - low) / step_size).
  assert (Hn0 : 0 <= n) by (apply Z.div_pos; lia).
  assert (Hnle : step_size * n <= high - low)
    by (apply Z.mul_div_le; lia).
  assert (Hngt : high - low < step_size * Z.succ n)
    by (apply Z.mul_succ_div_gt; lia).
  rewrite interval_list_constructed. f_equal.
  rewrite (interval_loop_iterates high is_negative (VStepType ARITHMETIC)
             step_size (S (Z.to_nat n))).
  - f_equal. apply list_fmap_ext. intros _ i _.
    now rewrite iter_next_value_arithmetic.
  - lia.
  - intros i Hi. rewrite iter_next_value_arithmetic. nia.
  - rewrite iter_next_value_arithmetic. nia.
Qed.

(** X20: within the range where [float(...)] is exact.  On an
    arithmetic parameter with integer [low], [high] and [step_size] that
    [debug] accepts, with [high] and [step_size] below [2 ** 53],
    [interval_list()] has exactly [max_n() + 1] elements, the first is
    [low] with the sign applied, the last is at most [high] in
    magnitude, and consecutive elements differ by exactly [step_size] in
    magnitude. *)
Theorem arithmetic_interval_below_2_53
    (log : Float.float -> Float.float -> result Float.float)
    (float_pow : Float.float -> Z -> result Float.float)
    name low high step_size repr_type is_negative :
  debug
    (DiscreteParameter name low high (VStepType ARITHMETIC) step_size
       repr_type is_negative) = Ok tt ->
  high < 2 ^ 53 -> step_size < 2 ^ 53 ->
  arithmetic_interval_spec log float_pow
    (DiscreteParameter name low high (VStepType ARITHMETIC) step_size
       repr_type is_negative)
    low high step_size is_negative.
Proof.
  intros Hd Hhigh Hss. apply debug_constructed_ok in Hd.
  destruct Hd as [_ Hw]. apply well_formed_true in Hw.
  destruct Hw as (_ & Hlow & Hlt & Hstep & _).
  set (n := (high - low) / step_size).
  assert (Hn0 : 0 <= n) by (apply Z.div_pos; lia).
  assert (Hnle : step_size * n <= high - low)
    by (apply Z.mul_div_le; lia).
  set (f := fun i : nat =>
              signed is_negative (low + step_size * Z.of_nat i)).
  exists (S (Z.to_nat n)), (f <$> seq 0 (S (Z.to_nat n))), n.
  split; [|split; [|split; [|split; [|split]]]].
  - apply interval_list_arithmetic; assumption.
  - apply max_n_arithmetic; assumption.
  - rewrite length_fmap, length_seq. lia.
  - cbn [seq fmap list_fmap head]. subst f. cbv beta. unfold signed.
    cbn [Z.of_nat]. rewrite Z.mul_0_r, Z.add_0_r. reflexivity.
  - exists (f (Z.to_nat n)). split.
    + rewrite seq_S, fmap_app. cbn [fmap list_fmap]. apply last_snoc.
    + subst f. cbv beta. rewrite abs_signed. nia.
  - intros i x y Hx Hy.
    rewrite list_lookup_fmap in Hx, Hy.
    destruct (seq 0 (S (Z.to_nat n)) !! i) as [i'|] eqn:Hi; [|discriminate].
    destruct (seq 0 (S (Z.to_nat n)) !! S i) as [j'|] eqn:Hj; [|discriminate].
    apply lookup_seq in Hi, Hj. destruct Hi as [-> _], Hj as [-> _].
    cbn [fmap option_fmap option_map] in Hx, Hy.
    injection Hx as <-. injection Hy as <-.
    subst f. cbv beta. rewrite !abs_signed. nia.
Qed.

Lemma arithmetic_interval_below_2_53_witness :
  debug units = Ok tt /\ 512 < 2 ^ 53 /\ 32 < 2 ^ 53
  /\ arithmetic_interval_spec (fun _ _ => Ok S754_nan) (fun _ _ => Ok S754_nan)
       units 32 512 32 false.
Proof.
  split; [vm_compute; reflexivity|]. split; [reflexivity|].
  split; [reflexivity|].
  apply (arithmetic_interval_below_2_53 (fun _ _ => Ok S754_nan)
           (fun _ _ => Ok S754_nan) "units" 32 512 32 default_repr_type
           default_is_negative).
  - vm_compute. reflexivity.
  - reflexivity.
  - reflexivity.
Defined.

(** C5: on the arithmetic parameter [wide], which [debug] accepts,
    [interval_list()] is [[0]], one element and not [max_n() + 1]:
    [float(2 ** 53 + 1)] is [2.0 ** 53], the correction for roundoff of
    [max_n] fires, and [max_n()] returns 1. *)
Theorem wide_refutes_arithmetic_interval_spec :
  debug wide = Ok tt
  /\ (forall fuel, (1 <= fuel)%nat -> interval_list fuel wide = Ok (Some [0]))
  /\ forall log float_pow,
       max_n log float_pow wide = Ok (VInt 1)
       /\ ~ arithmetic_interval_spec log float_pow wide 0 (2 ^ 53)
             (2 ^ 53 + 1) false.
Proof.
  assert (Hlist : forall fuel, (1 <= fuel)%nat ->
                    interval_list fuel wide = Ok (Some [0])).
  { intros fuel Hfuel. unfold wide. rewrite interval_list_constructed.
    f_equal.
    apply (interval_loop_fuel_mono (2 ^ 53) default_is_negative
             default_step_type (2 ^ 53 + 1) 1%nat fuel [] 0 [0]);
      [vm_compute; reflexivity|exact Hfuel]. }
  split; [vm_compute; reflexivity|]. split; [exact Hlist|].
  intros log float_pow.
  assert (Hmax : max_n log float_pow wide = Ok (VInt 1))
    by (vm_compute; reflexivity).
  split; [exact Hmax|].
  intros (fuel & l & n & Hl & Hn & Hlen & _).
  rewrite Hmax in Hn. injection Hn as <-.
  destruct fuel as [|fuel].
  - vm_compute in Hl. discriminate.
  - rewrite Hlist in Hl by lia. injection Hl as <-. cbn in Hlen. lia.
Qed.

(** * Further properties of [interval_list] *)

Lemma iter_next_value_geometric step_size low (i : nat) :
  Nat.iter i (next_value (VStepType GEOMETRIC) step_size) low
  = low * step_size ^ Z.of_nat i.
Proof.
  induction i as [|i IH].
  - change (low = low * step_size ^ 0). rewrite Z.pow_0_r. lia.
  - rewrite Nat.iter_succ, IH. unfold next_value.
    destruct (decide (VStepType GEOMETRIC = VStepType ARITHMETIC));
      [discriminate|].
    destruct (decide (VStepType GEOMETRIC = VStepType GEOMETRIC));
      [|contradiction].
    rewrite Nat2Z.inj_succ, Z.pow_succ_r by lia. lia.
Qed.

Lemma iter_next_value_magnitude t step_size low (i : nat) :
  Nat.iter i (next_value (VStepType t) step_size) low
  = magnitude t low step_size (Z.of_nat i).
Proof.
  destruct t; cbn [magnitude].
  - apply iter_next_value_arithmetic.
  - apply iter_next_value_geometric.
Qed.

(** What a returned list is: the signed iterates of the update, up to
    the first that exceeds [high]. *)
Lemma interval_loop_returns high is_neg step_type step_size fuel :
  forall values value_cur l,
    interval_loop fuel high is_neg step_type step_size values value_cur
    = Some l ->
    exists k : nat,
      l = values
          ++ ((fun i =>
                 signed is_neg
                   (Nat.iter i (next_value step_type step_size) value_cur))
                <$> seq 0 k)
      /\ (forall i, (i < k)%nat ->
            Nat.iter i (next_value step_type step_size) value_cur <= high)
      /\ high < Nat.iter k (next_value step_type step_size) value_cur.
Proof.
  induction fuel as [|fuel IH]; intros values value_cur l Hl.
  - destruct (Z.leb_spec value_cur high) as [Hc|Hc].
    + rewrite interval_loop_out_of_fuel in Hl by exact Hc. discriminate.
    + rewrite interval_loop_exit in Hl by exact Hc. injection Hl as <-.
      exists 0%nat. cbn [seq fmap list_fmap]. rewrite app_nil_r.
      split; [reflexivity|]. split; [intros i Hi; lia|exact Hc].
  - destruct (Z.leb_spec value_cur high) as [Hc|Hc].
    + rewrite interval_loop_step in Hl by exact Hc.
      apply IH in Hl. destruct Hl as (k & -> & Hin & Hout).
      exists (S k). split; [|split].
      * rewrite <- app_assoc. f_equal.
        cbn [seq fmap list_fmap app]. f_equal.
        rewrite <- seq_shift, <- list_fmap_compose.
        apply list_fmap_ext. intros _ i _. unfold compose.
        now rewrite <- Nat.iter_succ_r.
      * intros [|i] Hi; [exact Hc|].
        rewrite Nat.iter_succ_r. apply Hin. lia.
      * rewrite Nat.iter_succ_r. exact Hout.
    + rewrite interval_loop_exit in Hl by exact Hc. injection Hl as <-.
      exists 0%nat. cbn [seq fmap list_fmap]. rewrite app_nil_r.
      split; [reflexivity|]. split; [intros i Hi; lia|exact Hc].
Qed.

(** On accepted arguments the magnitudes grow with the index. *)
Lemma magnitude_lt t low step_size (i j : Z) :
  0 <= low -> 0 < step_size ->
  (t = GEOMETRIC -> 1 < step_size /\ 0 < low) ->
  0 <= i -> i < j ->
  magnitude t low step_size i < magnitude t low step_size j.
Proof.
  intros Hlow Hstep Hgeo Hi Hij. destruct t; cbn [magnitude].
  - nia.
  - destruct Hgeo as [Hs Hl]; [reflexivity|].
    assert (step_size ^ i < step_size ^ j)
      by (apply Z.pow_lt_mono_r; lia).
    nia.
Qed.

Lemma magnitude_0 t low step_size : magnitude t low step_size 0 = low.
Proof. destruct t; cbn [magnitude]; [lia|]. rewrite Z.pow_0_r. lia. Qed.

Lemma magnitude_nonneg t low step_size i :
  0 <= low -> 0 < step_size -> 0 <= i ->
  0 <= magnitude t low step_size i.
Proof.
  intros Hlow Hstep Hi. destruct t; cbn [magnitude]; [nia|].
  assert (0 <= step_size ^ i) by (apply Z.pow_nonneg; lia). nia.
Qed.

(** The shape of every list [interval_list] returns on an accepted
    parameter. *)
Lemma interval_list_shape name low high t step_size repr_type is_negative
    fuel l :
  debug
    (DiscreteParameter name low high (VStepType t) step_size repr_type
       is_negative) = Ok tt ->
  interval_list fuel
    (DiscreteParameter name low high (VStepType t) step_size repr_type
       is_negative) = Ok (Some l) ->
  exists g : nat,
    l = (fun i : nat =>
           signed is_negative (magnitude t low step_size (Z.of_nat i)))
          <$> seq 0 (S g)
    /\ greatest_index t low high step_size (Z.of_nat g).
Proof.
  intros Hd Hl. apply debug_constructed_ok in Hd. destruct Hd as [_ Hw].
  apply well_formed_true in Hw.
  destruct Hw as (_ & Hlow & Hlt & Hstep & Hgeo).
  assert (Hgeo' : t = GEOMETRIC -> 1 < step_size /\ 0 < low)
    by (intros ->; apply Hgeo; reflexivity).
  rewrite interval_list_constructed in Hl. injection Hl as Hl.
  apply interval_loop_returns in Hl. destruct Hl as (k & -> & Hin & Hout).
  cbn [app]. destruct k as [|g].
  - cbn [Nat.iter] in Hout. change (high < low) in Hout. lia.
  - exists g. split.
    + apply list_fmap_ext. intros _ i _.
      now rewrite iter_next_value_magnitude.
    + split; [lia|]. split.
      * rewrite <- iter_next_value_magnitude. apply Hin. lia.
      * intros j Hj. rewrite iter_next_value_magnitude in Hout.
        destruct (Z.eq_dec j (Z.of_nat (S g))) as [->|Hne]; [exact Hout|].
        assert (magnitude t low step_size (Z.of_nat (S g))
                < magnitude t low step_size j)
          by (apply magnitude_lt; try assumption; lia).
        lia.
Qed.

(** ** The sign *)

Lemma interval_loop_is_negative fuel high step_type step_size :
  forall values value_cur,
    interval_loop fuel high true step_type step_size (Z.opp <$> values)
      value_cur
    = fmap (M := list) Z.opp
        <$> interval_loop fuel high false step_type step_size values
              value_cur.
Proof.
  induction fuel as [|fuel IH]; intros values value_cur;
    cbn [interval_loop]; destruct (value_cur <=? high); try reflexivity.
  rewrite <- IH. f_equal. rewrite fmap_app. reflexivity.
Qed.

Section Sign.

Variable log : Float.float -> Float.float -> result Float.float.
Variable float_pow : Float.float -> Z -> result Float.float.

(** [max_n] reads four attributes, and [is_negative] is none of them. *)
Lemma max_n_reads (self self' : obj) :
  getattr self "low" = getattr self' "low" ->
  getattr self "high" = getattr self' "high" ->
  getattr self "step_size" = getattr self' "step_size" ->
  getattr self "step_type" = getattr self' "step_type" ->
  max_n log float_pow self = max_n log float_pow self'.
Proof.
  intros Hl Hh Hs Ht. unfold max_n. rewrite Hl, Hh, Hs, Ht.
  destruct (getattr self' "low") as [low|]; [|reflexivity]. cbn [bind].
  destruct (Float.float_ low); [|reflexivity]. cbn [bind].
  destruct (getattr self' "high") as [high|]; [|reflexivity]. cbn [bind].
  destruct (Float.float_ high); [|reflexivity]. cbn [bind].
  destruct (getattr self' "step_size") as [step|]; [|reflexivity].
  cbn [bind].
  destruct (Float.float_ step); [|reflexivity]. cbn [bind].
  destruct (getattr self' "step_type") as [t|]; reflexivity.
Qed.

(** X21: the sign in [interval_list] and [max_n].  Constructing a
    parameter with integer bounds and step that [debug] accepts with
    [is_negative=True] instead of [is_negative=False] leaves it
    accepted.  [interval_list()] returns a list that is not empty, whose
    elements are all non-negative with [is_negative=False] and are each
    negated with [is_negative=True], for any fuel.  [max_n()] never
    reads [is_negative]: it ends the same way for both constructions. *)
Theorem interval_list_negated name low high step_type step_size repr_type :
  debug
    (DiscreteParameter name low high step_type step_size repr_type false)
  = Ok tt ->
  debug
    (DiscreteParameter name low high step_type step_size repr_type true)
  = Ok tt
  /\ (exists fuel l,
        l <> []
        /\ Forall (fun x => 0 <= x) l
        /\ interval_list fuel
             (DiscreteParameter name low high step_type step_size repr_type
                false) = Ok (Some l)
        /\ interval_list fuel
             (DiscreteParameter name low high step_type step_size repr_type
                true) = Ok (Some (Z.opp <$> l)))
  /\ (forall fuel,
        interval_list fuel
          (DiscreteParameter name low high step_type step_size repr_type
             true)
        = match
            interval_list fuel
              (DiscreteParameter name low high step_type step_size
                 repr_type false)
          with
          | Ok o => Ok (fmap (M := list) Z.opp <$> o)
          | Raised e => Raised e
          end)
  /\ max_n log float_pow
       (DiscreteParameter name low high step_type step_size repr_type true)
     = max_n log float_pow
         (DiscreteParameter name low high step_type step_size repr_type
            false).
Proof.
  intros Hd. apply debug_constructed_ok in Hd. destruct Hd as [Hn Hw].
  split; [apply debug_constructed_ok; split; assumption|].
  split; [|split].
  - destruct (interval_loop_well_formed _ _ _ _ _ false Hw) as [l Hl].
    exists (Z.to_nat (high - low + 1)), l.
    rewrite !interval_list_constructed.
    change (@nil Z) with (Z.opp <$> @nil Z) at 3.
    rewrite interval_loop_is_negative, Hl.
    apply well_formed_true in Hw.
    destruct Hw as ([t ->] & Hlow & Hlt & Hstep & Hgeo).
    pose proof Hl as Hk. apply interval_loop_returns in Hk.
    destruct Hk as (k & -> & Hin & Hout).
    cbn [app]. split; [|split; [|split; reflexivity]].
    + destruct k; [change (high < low) in Hout; lia|discriminate].
    + apply Forall_fmap, Forall_forall. intros i _. cbn [signed compose].
      rewrite iter_next_value_magnitude. apply magnitude_nonneg; lia.
  - intros fuel. rewrite !interval_list_constructed.
    change (@nil Z) with (Z.opp <$> @nil Z) at 1.
    rewrite interval_loop_is_negative. reflexivity.
  - apply max_n_reads; reflexivity.
Qed.

End Sign.

Lemma interval_list_negated_witness :
  debug units = Ok tt
  /\ debug units_negative = Ok tt
  /\ (exists fuel l,
        l <> []
        /\ Forall (fun x => 0 <= x) l
        /\ interval_list fuel units = Ok (Some l)
        /\ interval_list fuel units_negative = Ok (Some (Z.opp <$> l)))
  /\ (forall fuel,
        interval_list fuel units_negative
        = match interval_list fuel units with
          | Ok o => Ok (fmap (M := list) Z.opp <$> o)
          | Raised e => Raised e
          end)
  /\ max_n (fun _ _ => Ok S754_nan) (fun _ _ => Ok S754_nan) units_negative
     = max_n (fun _ _ => Ok S754_nan) (fun _ _ => Ok S754_nan) units.
Proof.
  split; [vm_compute; reflexivity|].
  apply (interval_list_negated (fun _ _ => Ok S754_nan)
           (fun _ _ => Ok S754_nan) "units" 32 512 (VStepType ARITHMETIC) 32
           default_repr_type).
  vm_compute. reflexivity.
Defined.

(** X1: on every parameter that [debug] accepts, arithmetic or
    geometric, [interval_list()] returns the signed magnitudes
    [low + step_size * i], respectively [low * step_size ** i], for
    [i = 0 .. g], where [g] is the greatest index whose magnitude does
    not exceed [high]; it has [g + 1] elements. *)
Theorem interval_list_closed_form name low high t step_size repr_type
    is_negative :
  debug
    (DiscreteParameter name low high (VStepType t) step_size repr_type
       is_negative) = Ok tt ->
  exists fuel l g,
    interval_list fuel
      (DiscreteParameter name low high (VStepType t) step_size repr_type
         is_negative) = Ok (Some l)
    /\ greatest_index t low high step_size g
    /\ Z.of_nat (length l) = g + 1
    /\ forall i : nat,
         Z.of_nat i <= g ->
         l !! i = Some (signed is_negative
                          (magnitude t low step_size (Z.of_nat i))).
Proof.
  intros Hd. pose proof Hd as Hd'.
  apply debug_constructed_ok in Hd'. destruct Hd' as [_ Hw].
  destruct (interval_loop_well_formed _ _ _ _ _ is_negative Hw) as [l Hl].
  assert (Hil : interval_list (Z.to_nat (high - low + 1))
                  (DiscreteParameter name low high (VStepType t) step_size
                     repr_type is_negative) = Ok (Some l))
    by (rewrite interval_list_constructed, Hl; reflexivity).
  destruct (interval_list_shape _ _ _ _ _ _ _ _ _ Hd Hil) as (g & -> & Hg).
  eexists (Z.to_nat (high - low + 1)), _, (Z.of_nat g).
  split; [exact Hil|]. split; [exact Hg|]. split.
  - rewrite length_fmap, length_seq. lia.
  - intros i Hi. rewrite list_lookup_fmap.
    rewrite (proj2 (lookup_seq 0 (S g) i i)) by lia. reflexivity.
Qed.

Lemma interval_list_closed_form_witness :
  debug batch = Ok tt
  /\ exists fuel l g,
       interval_list fuel batch = Ok (Some l)
       /\ greatest_index GEOMETRIC 1 128 2 g
       /\ Z.of_nat (length l) = g + 1
       /\ forall i : nat,
            Z.of_nat i <= g ->
            l !! i = Some (signed false (magnitude GEOMETRIC 1 2 (Z.of_nat i))).
Proof.
  split; [vm_compute; reflexivity|].
  apply (interval_list_closed_form "batch" 1 128 GEOMETRIC 2
           default_repr_type default_is_negative).
  vm_compute. reflexivity.
Defined.

(** X2: every element of a list [interval_list()] returns on an
    accepted parameter has its magnitude between [low] and [high], both
    inclusive, and carries the sign [is_negative] asks for. *)
Theorem interval_list_elements_in_bounds name low high t step_size repr_type
    is_negative fuel l :
  debug
    (DiscreteParameter name low high (VStepType t) step_size repr_type
       is_negative) = Ok tt ->
  interval_list fuel
    (DiscreteParameter name low high (VStepType t) step_size repr_type
       is_negative) = Ok (Some l) ->
  forall x, x ∈ l ->
    low <= Z.abs x <= high /\ x = signed is_negative (Z.abs x).
Proof.
  intros Hd Hl x Hx.
  destruct (interval_list_shape _ _ _ _ _ _ _ _ _ Hd Hl)
    as (g & -> & _ & Hle & _).
  apply debug_constructed_ok in Hd. destruct Hd as [_ Hw].
  apply well_formed_true in Hw.
  destruct Hw as (_ & Hlow & Hlt & Hstep & Hgeo).
  assert (Hgeo' : t = GEOMETRIC -> 1 < step_size /\ 0 < low)
    by (intros ->; apply Hgeo; reflexivity).
  apply list_elem_of_fmap in Hx. destruct Hx as (i & -> & Hi).
  apply elem_of_seq in Hi.
  assert (Hm0 : low <= magnitude t low step_size (Z.of_nat i)).
  { rewrite <- (magnitude_0 t low step_size) at 1.
    destruct (Z.eq_dec (Z.of_nat i) 0) as [->|Hne]; [lia|].
    apply Z.lt_le_incl, magnitude_lt; try assumption; lia. }
  assert (Hmg : magnitude t low step_size (Z.of_nat i) <= high).
  { destruct (Z.eq_dec (Z.of_nat i) (Z.of_nat g)) as [->|Hne]; [exact Hle|].
    assert (magnitude t low step_size (Z.of_nat i)
            < magnitude t low step_size (Z.of_nat g))
      by (apply magnitude_lt; try assumption; lia).
    lia. }
  rewrite abs_signed. rewrite Z.abs_eq by lia. split; [lia|reflexivity].
Qed.

Lemma interval_list_elements_in_bounds_witness :
  debug units = Ok tt
  /\ interval_list 16 units = Ok (Some units_interval)
  /\ forall x, x ∈ units_interval ->
       32 <= Z.abs x <= 512 /\ x = signed false (Z.abs x).
Proof.
  split; [vm_compute; reflexivity|]. split; [vm_compute; reflexivity|].
  apply (interval_list_elements_in_bounds "units" 32 512 ARITHMETIC 32
           default_repr_type default_is_negative 16 units_interval);
    vm_compute; reflexivity.
Defined.

(** X3: in a list [interval_list()] returns on an accepted parameter the
    magnitudes increase strictly with the index; so no value occurs
    twice, and looking a value up gives back the one index it sits at. *)
Theorem interval_list_strictly_increasing name low high t step_size
    repr_type is_negative fuel l :
  debug
    (DiscreteParameter name low high (VStepType t) step_size repr_type
       is_negative) = Ok tt ->
  interval_list fuel
    (DiscreteParameter name low high (VStepType t) step_size repr_type
       is_negative) = Ok (Some l) ->
  (forall (i j : nat) x y,
      l !! i = Some x -> l !! j = Some y -> (i < j)%nat ->
      Z.abs x < Z.abs y)
  /\ NoDup l
  /\ forall (i j : nat) x, l !! i = Some x -> l !! j = Some x -> i = j.
Proof.
  intros Hd Hl.
  destruct (interval_list_shape _ _ _ _ _ _ _ _ _ Hd Hl) as (g & -> & _).
  apply debug_constructed_ok in Hd. destruct Hd as [_ Hw].
  apply well_formed_true in Hw.
  destruct Hw as (_ & Hlow & Hlt & Hstep & Hgeo).
  assert (Hgeo' : t = GEOMETRIC -> 1 < step_size /\ 0 < low)
    by (intros ->; apply Hgeo; reflexivity).
  set (f := fun i : nat =>
              signed is_negative (magnitude t low step_size (Z.of_nat i))).
  assert (Hlook : forall (i : nat) x,
             (f <$> seq 0 (S g)) !! i = Some x -> x = f i).
  { intros i x Hx. rewrite list_lookup_fmap in Hx.
    destruct (seq 0 (S g) !! i) as [i'|] eqn:Hi; [|discriminate].
    apply lookup_seq in Hi. destruct Hi as [-> _].
    cbn in Hx. injection Hx as <-. reflexivity. }
  assert (Hinc : forall (i j : nat) x y,
             (f <$> seq 0 (S g)) !! i = Some x ->
             (f <$> seq 0 (S g)) !! j = Some y ->
             (i < j)%nat -> Z.abs x < Z.abs y).
  { intros i j x y Hx Hy Hij.
    apply Hlook in Hx, Hy. subst x y. unfold f. rewrite !abs_signed.
    assert (magnitude t low step_size (Z.of_nat i)
            < magnitude t low step_size (Z.of_nat j))
      by (apply magnitude_lt; try assumption; lia).
    pose proof (magnitude_nonneg t low step_size (Z.of_nat i) Hlow Hstep
                  ltac:(lia)).
    lia. }
  assert (Huniq : forall (i j : nat) x,
             (f <$> seq 0 (S g)) !! i = Some x ->
             (f <$> seq 0 (S g)) !! j = Some x -> i = j).
  { intros i j x Hi Hj.
    destruct (Nat.lt_trichotomy i j) as [H|[H|H]]; [|exact H|].
    - pose proof (Hinc i j x x Hi Hj H). lia.
    - pose proof (Hinc j i x x Hj Hi H). lia. }
  split; [exact Hinc|]. split; [|exact Huniq].
  apply NoDup_alt. exact Huniq.
Qed.

Lemma interval_list_strictly_increasing_witness :
  debug batch = Ok tt
  /\ interval_list 8 batch = Ok (Some batch_interval)
  /\ (forall (i j : nat) x y,
        batch_interval !! i = Some x -> batch_interval !! j = Some y ->
        (i < j)%nat -> Z.abs x < Z.abs y)
  /\ NoDup batch_interval
  /\ forall (i j : nat) x,
       batch_interval !! i = Some x -> batch_interval !! j = Some x -> i = j.
Proof.
  split; [vm_compute; reflexivity|]. split; [vm_compute; reflexivity|].
  apply (interval_list_strictly_increasing "batch" 1 128 GEOMETRIC 2
           default_repr_type default_is_negative 8 batch_interval);
    vm_compute; reflexivity.
Defined.

(** X4: in a list [interval_list()] returns on an accepted parameter,
    the magnitude of each element after the first is the magnitude
    before it plus [step_size] on an arithmetic interval, times
    [step_size] on a geometric one, exactly. *)
Theorem interval_list_consecutive name low high t step_size repr_type
    is_negative fuel l :
  debug
    (DiscreteParameter name low high (VStepType t) step_size repr_type
       is_negative) = Ok tt ->
  interval_list fuel
    (DiscreteParameter name low high (VStepType t) step_size repr_type
       is_negative) = Ok (Some l) ->
  forall (i : nat) x y,
    l !! i = Some x -> l !! S i = Some y ->
    Z.abs y = match t with
              | ARITHMETIC => Z.abs x + step_size
              | GEOMETRIC => Z.abs x * step_size
              end.
Proof.
  intros Hd Hl i x y Hx Hy.
  destruct (interval_list_shape _ _ _ _ _ _ _ _ _ Hd Hl) as (g & -> & _).
  apply debug_constructed_ok in Hd. destruct Hd as [_ Hw].
  apply well_formed_true in Hw.
  destruct Hw as (_ & Hlow & Hlt & Hstep & Hgeo).
  rewrite list_lookup_fmap in Hx, Hy.
  destruct (seq 0 (S g) !! i) as [i'|] eqn:Hi; [|discriminate].
  destruct (seq 0 (S g) !! S i) as [j'|] eqn:Hj; [|discriminate].
  apply lookup_seq in Hi, Hj. destruct Hi as [-> _], Hj as [-> _].
  cbn [fmap option_fmap option_map] in Hx, Hy.
  injection Hx as <-. injection Hy as <-.
  rewrite !abs_signed.
  pose proof (magnitude_nonneg t low step_size (Z.of_nat (0 + i)) Hlow Hstep
                ltac:(lia)).
  pose proof (magnitude_nonneg t low step_size (Z.of_nat (0 + S i)) Hlow
                Hstep ltac:(lia)).
  rewrite !Z.abs_eq by assumption.
  change (0 + S i)%nat with (S i). change (0 + i)%nat with i.
  rewrite Nat2Z.inj_succ.
  destruct t; cbn [magnitude]; [lia|].
  rewrite Z.pow_succ_r by lia. lia.
Qed.

Lemma interval_list_consecutive_witness :
  debug batch = Ok tt
  /\ interval_list 8 batch = Ok (Some batch_interval)
  /\ forall (i : nat) x y,
       batch_interval !! i = Some x -> batch_interval !! S i = Some y ->
       Z.abs y = Z.abs x * 2.
Proof.
  split; [vm_compute; reflexivity|]. split; [vm_compute; reflexivity|].
  apply (interval_list_consecutive "batch" 1 128 GEOMETRIC 2
           default_repr_type default_is_negative 8 batch_interval);
    vm_compute; reflexivity.
Defined.




(** X6: with integer bounds and step, the upper bound is inclusive
    exactly when it can be reached.  In a list [interval_list()] returns
    on an arithmetic parameter with integer [low], [high] and
    [step_size] that [debug] accepts, the last magnitude is
    [high - (high - low) mod step_size], and [high] itself is among the
    magnitudes if and only if [step_size] divides [high - low]. *)
Theorem interval_list_arithmetic_last name low high step_size repr_type
    is_negative fuel l :
  debug
    (DiscreteParameter name low high (VStepType ARITHMETIC) step_size
       repr_type is_negative) = Ok tt ->
  interval_list fuel
    (DiscreteParameter name low high (VStepType ARITHMETIC) step_size
       repr_type is_negative) = Ok (Some l) ->
  last l = Some (signed is_negative (high - (high - low) mod step_size))
  /\ (high ∈ (Z.abs <$> l) <-> (high - low) mod step_size = 0).
Proof.
  intros Hd Hl.
  destruct (interval_list_shape _ _ _ _ _ _ _ _ _ Hd Hl)
    as (g & -> & Hg0 & Hgle & Hggt).
  apply debug_constructed_ok in Hd. destruct Hd as [_ Hw].
  apply well_formed_true in Hw.
  destruct Hw as (_ & Hlow & Hlt & Hstep & _).
  cbn [magnitude] in Hgle, Hggt.
  specialize (Hggt (Z.of_nat g + 1) ltac:(lia)).
  assert (Hq : Z.of_nat g = (high - low) / step_size)
    by (apply Z.div_unique_pos with (high - low - step_size * Z.of_nat g);
        lia).
  pose proof (Z.div_mod (high - low) step_size ltac:(lia)) as Hdm.
  pose proof (Z.mod_pos_bound (high - low) step_size Hstep) as Hmb.
  rewrite <- Hq in Hdm.
  split.
  - rewrite seq_S, fmap_app. cbn [fmap list_fmap]. rewrite last_snoc.
    cbn [magnitude]. do 2 f_equal. lia.
  - rewrite <- list_fmap_compose. split.
    + intros Hin. apply list_elem_of_fmap in Hin.
      destruct Hin as (i & Hi & Hin). apply elem_of_seq in Hin.
      unfold compose in Hi. rewrite abs_signed in Hi. cbn [magnitude] in Hi.
      rewrite Z.abs_eq in Hi by nia.
      assert (Z.of_nat i = Z.of_nat g) by nia. nia.
    + intros Hmod. apply list_elem_of_fmap. exists g. split.
      * unfold compose. rewrite abs_signed. cbn [magnitude].
        rewrite Z.abs_eq by nia. lia.
      * apply elem_of_seq. lia.
Qed.

Lemma interval_list_arithmetic_last_witness :
  debug units = Ok tt
  /\ interval_list 16 units = Ok (Some units_interval)
  /\ last units_interval = Some (signed false (512 - (512 - 32) mod 32))
  /\ (512 ∈ (Z.abs <$> units_interval) <-> (512 - 32) mod 32 = 0).
Proof.
  split; [vm_compute; reflexivity|]. split; [vm_compute; reflexivity|].
  apply (interval_list_arithmetic_last "units" 32 512 32 default_repr_type
           default_is_negative 16 units_interval);
    vm_compute; reflexivity.
Defined.

(** * Further properties of [debug] *)

Lemma well_formed_intro low high step_type step_size repr_type :
  (exists t, step_type = VStepType t) ->
  (exists r, repr_type = VReprType r) ->
  0 <= low -> low < high -> 0 < step_size ->
  (step_type = VStepType GEOMETRIC -> 1 < step_size /\ 0 < low) ->
  well_formed low high step_type step_size repr_type = true.
Proof.
  intros [t ->] [r ->] Hlow Hlt Hstep Hgeo. unfold well_formed.
  cbn [is_StepType is_DiscreteRepresentationType andb].
  destruct (Z.leb_spec 0 low); [|lia].
  destruct (Z.ltb_spec low high); [|lia].
  destruct (Z.ltb_spec 0 step_size); [|lia].
  cbn [andb].
  destruct (decide (VStepType t = VStepType GEOMETRIC)) as [Hg|Hg];
    [|reflexivity].
  destruct (Hgeo Hg).
  destruct (Z.ltb_spec 1 step_size); [|lia].
  destruct (Z.eqb_spec low 0); [lia|]. reflexivity.
Qed.

Lemma well_formed_repr low high step_type step_size repr_type :
  well_formed low high step_type step_size repr_type = true ->
  exists r, repr_type = VReprType r.
Proof.
  unfold well_formed. intros H.
  repeat (apply andb_prop in H; destruct H as [H ?]).
  destruct repr_type; try discriminate. eauto.
Qed.

(** X7: [debug] accepts a parameter with a well-formed name and integer
    [low], [high] and [step_size] exactly when its step type and
    representation type are members of their enumerations,
    [0 <= low < high], [step_size > 0] and, on a geometric interval,
    [step_size > 1] and [low > 0]; in every other case it raises a
    [Warning]. *)
Theorem debug_accepts_exactly name low high step_type step_size repr_type
    is_negative :
  name <> "" ->
  (debug
     (DiscreteParameter name low high step_type step_size repr_type
        is_negative) = Ok tt
   <-> (exists t, step_type = VStepType t)
       /\ (exists r, repr_type = VReprType r)
       /\ 0 <= low /\ low < high /\ 0 < step_size
       /\ (step_type = VStepType GEOMETRIC -> 1 < step_size /\ 0 < low))
  /\ (debug
        (DiscreteParameter name low high step_type step_size repr_type
           is_negative) <> Ok tt ->
      raises
        (debug
           (DiscreteParameter name low high step_type step_size repr_type
              is_negative)) Warning).
Proof.
  intros Hn. split.
  - rewrite debug_constructed_ok. split.
    + intros [_ Hw]. pose proof (well_formed_repr _ _ _ _ _ Hw) as Hr.
      apply well_formed_true in Hw.
      destruct Hw as (Ht & Hlow & Hlt & Hstep & Hgeo).
      repeat split; try assumption; apply Hgeo; assumption.
    + intros (Ht & Hr & Hlow & Hlt & Hstep & Hgeo).
      split; [exact Hn|]. apply well_formed_intro; assumption.
  - intros Hd. apply debug_raises_Warning; [exact Hn|].
    destruct (well_formed low high step_type step_size repr_type) eqn:Hw;
      [|reflexivity].
    exfalso. apply Hd. apply debug_constructed_ok. split; assumption.
Qed.

Lemma debug_accepts_exactly_witness :
  "batch" <> ""
  /\ (debug batch = Ok tt
      <-> (exists t, VStepType GEOMETRIC = VStepType t)
          /\ (exists r, default_repr_type = VReprType r)
          /\ 0 <= 1 /\ 1 < 128 /\ 0 < 2
          /\ (VStepType GEOMETRIC = VStepType GEOMETRIC -> 1 < 2 /\ 0 < 1))
  /\ (debug batch <> Ok tt -> raises (debug batch) Warning).
Proof.
  split; [discriminate|].
  apply (debug_accepts_exactly "batch" 1 128 (VStepType GEOMETRIC) 2
           default_repr_type default_is_negative).
  discriminate.
Defined.

Section DebugOutcome.

Variables (name : string) (low high : Z) (step_type : value)
  (step_size : Z) (repr_type : value) (is_negative : bool).

Let self : obj :=
  DiscreteParameter name low high step_type step_size repr_type is_negative.

(** What [debug] can end with: its return, or an exception that carries
    the parameter and whose message is not the one of the sign check. *)
Let outcome (r : result unit) : Prop :=
  r = Ok tt
  \/ exists c msg,
       r = Raised (Exn c msg (Some self)) /\ msg <> different_sign_message.

Local Ltac attrs :=
  repeat first
    [ rewrite getattr_step_type | rewrite getattr_repr_type
    | rewrite attr_int_low | rewrite attr_int_high
    | rewrite attr_int_step_size ];
  cbn [bind].

Local Ltac raised :=
  right; eexists _, _; split; [reflexivity|discriminate].

Lemma debug_outcome : outcome (debug self).
Proof.
  subst outcome self. cbv beta. unfold debug.
  rewrite Parameter_debug_constructed.
  destruct name as [|c name']; [cbn [bind]; raised|]. cbn [bind].
  attrs. destruct (is_StepType step_type); cbn [negb]; [|raised].
  attrs. destruct (is_DiscreteRepresentationType repr_type); cbn [negb];
    [|raised].
  attrs. destruct (Z.ltb_spec low 0); [raised|].
  attrs. destruct (Z.geb_spec low high); [raised|].
  attrs. destruct (Z.leb_spec step_size 0); [raised|].
  attrs.
  destruct (decide (step_type = VStepType GEOMETRIC)) as [Hg|Hg];
    [|cbn [bind]; left; reflexivity].
  attrs. destruct (Z.leb_spec step_size 1); [raised|].
  attrs. destruct (Z.eqb_spec low 0); cbn [bind]; [raised|].
  attrs. destruct (Z.eqb_spec high 0); [lia|].
  attrs. destruct (Z.ltb_spec low 0); [lia|]. cbn [bind].
  attrs. destruct (Z.gtb_spec low 0); [|lia].
  attrs. destruct (Z.ltb_spec high 0); [lia|]. left. reflexivity.
Qed.

End DebugOutcome.

(** X8: the last check of [debug], that the bounds of a geometric
    interval have the same sign, can never fail: a negative [low] is
    rejected before it and [high] is above [low].  Whatever [debug]
    raises on a constructed parameter carries that parameter, and its
    message is never the one about bounds of different sign. *)
Theorem debug_never_reports_different_signs name low high step_type
    step_size repr_type is_negative :
  forall e,
    debug
      (DiscreteParameter name low high step_type step_size repr_type
         is_negative) = Raised e ->
    exn_arg e
    = Some
        (DiscreteParameter name low high step_type step_size repr_type
           is_negative)
    /\ exn_msg e <> different_sign_message.
Proof.
  intros e He.
  destruct (debug_outcome name low high step_type step_size repr_type
              is_negative) as [Hok|(c & msg & Hr & Hmsg)].
  - rewrite Hok in He. discriminate.
  - rewrite Hr in He. injection He as <-. split; [reflexivity|exact Hmsg].
Qed.

Lemma debug_never_reports_different_signs_witness :
  exists e,
    debug
      (DiscreteParameter "p" (-4) 8 (VStepType GEOMETRIC) 2
         default_repr_type default_is_negative) = Raised e
    /\ exn_arg e
       = Some
           (DiscreteParameter "p" (-4) 8 (VStepType GEOMETRIC) 2
              default_repr_type default_is_negative)
    /\ exn_msg e <> different_sign_message.
Proof.
  eexists. split; [vm_compute; reflexivity|].
  eapply (debug_never_reports_different_signs "p" (-4) 8
            (VStepType GEOMETRIC) 2 default_repr_type default_is_negative).
  vm_compute. reflexivity.
Defined.

(** * Further properties of [max_n] *)

Lemma load_global_lower_bound :
  load_global "lower_bound" = raise NameError "lower_bound".
Proof. vm_compute. reflexivity. Qed.

Section MaxNEdges.

Variable log : Float.float -> Float.float -> result Float.float.
Variable float_pow : Float.float -> Z -> result Float.float.

(** X9: on a geometric parameter [max_n()] never returns, whatever the
    bounds and the step: when the three casts to float succeed it raises
    [NameError] on [lower_bound], and the casts succeed below [2 ** 53]. *)
Theorem max_n_geometric_never_returns name low high step_size repr_type
    is_negative :
  (forall v,
      max_n log float_pow
        (DiscreteParameter name low high (VStepType GEOMETRIC) step_size
           repr_type is_negative) <> Ok v)
  /\ (raises
        (max_n log float_pow
           (DiscreteParameter name low high (VStepType GEOMETRIC) step_size
              repr_type is_negative)) NameError
      \/ raises
           (max_n log float_pow
              (DiscreteParameter name low high (VStepType GEOMETRIC)
                 step_size repr_type is_negative)) OverflowError)
  /\ (Z.abs low < 2 ^ 53 -> Z.abs high < 2 ^ 53 ->
      Z.abs step_size < 2 ^ 53 ->
      max_n log float_pow
        (DiscreteParameter name low high (VStepType GEOMETRIC) step_size
           repr_type is_negative) = raise NameError "lower_bound").
Proof.
  assert (Hcast : forall z,
             Float.float_ (VInt z) = Ok (Float.convert z)
             \/ Float.float_ (VInt z)
                = raise OverflowError "int too large to convert to float").
  { intros z. unfold Float.float_, Float.of_int. cbn [int_of bind].
    destruct (Float.convert z); auto. }
  assert (H : max_n log float_pow
                (DiscreteParameter name low high (VStepType GEOMETRIC)
                   step_size repr_type is_negative)
              = raise NameError "lower_bound"
              \/ max_n log float_pow
                   (DiscreteParameter name low high (VStepType GEOMETRIC)
                      step_size repr_type is_negative)
                 = raise OverflowError "int too large to convert to float").
  { unfold max_n. rewrite getattr_low. cbn [bind].
    destruct (Hcast low) as [->| ->]; cbn [bind]; [|right; reflexivity].
    rewrite getattr_high. cbn [bind].
    destruct (Hcast high) as [->| ->]; cbn [bind]; [|right; reflexivity].
    rewrite getattr_step_size. cbn [bind].
    destruct (Hcast step_size) as [->| ->]; cbn [bind];
      [|right; reflexivity].
    rewrite getattr_step_type. cbn [bind].
    destruct (decide (VStepType GEOMETRIC = VStepType ARITHMETIC));
      [discriminate|].
    rewrite ?getattr_step_type. cbn [bind].
    destruct (decide (VStepType GEOMETRIC = VStepType GEOMETRIC));
      [|contradiction].
    rewrite load_global_lower_bound. left. reflexivity. }
  split; [|split].
  - intros v Hv. destruct H as [H|H]; rewrite H in Hv; discriminate.
  - destruct H as [H|H]; rewrite H; [left|right]; reflexivity.
  - intros Hl Hh Hs. unfold max_n.
    rewrite getattr_low. cbn [bind]. unfold Float.float_ at 1.
    cbn [int_of bind]. rewrite of_int_exact by lia. cbn [bind].
    rewrite getattr_high. cbn [bind]. unfold Float.float_ at 1.
    cbn [int_of bind]. rewrite of_int_exact by lia. cbn [bind].
    rewrite getattr_step_size. cbn [bind]. unfold Float.float_ at 1.
    cbn [int_of bind]. rewrite of_int_exact by lia. cbn [bind].
    rewrite getattr_step_type. cbn [bind].
    destruct (decide (VStepType GEOMETRIC = VStepType ARITHMETIC));
      [discriminate|].
    rewrite ?getattr_step_type. cbn [bind].
    destruct (decide (VStepType GEOMETRIC = VStepType GEOMETRIC));
      [|contradiction].
    rewrite load_global_lower_bound. reflexivity.
Qed.

(** X10: with [step_size = 0] on an arithmetic parameter, which [debug]
    rejects, [max_n()] divides by the float zero: it raises
    [ZeroDivisionError] when the bounds are below [2 ** 53] in
    magnitude. *)
Theorem max_n_zero_step_raises_ZeroDivisionError name low high repr_type
    is_negative :
  Z.abs low < 2 ^ 53 -> Z.abs high < 2 ^ 53 ->
  max_n log float_pow
    (DiscreteParameter name low high (VStepType ARITHMETIC) 0 repr_type
       is_negative) = raise ZeroDivisionError "float division by zero"
  /\ debug
       (DiscreteParameter name low high (VStepType ARITHMETIC) 0 repr_type
          is_negative) <> Ok tt.
Proof.
  intros Hl Hh. split.
  - unfold max_n.
    rewrite getattr_low. cbn [bind]. unfold Float.float_ at 1.
    cbn [int_of bind]. rewrite of_int_exact by lia. cbn [bind].
    rewrite getattr_high. cbn [bind]. unfold Float.float_ at 1.
    cbn [int_of bind]. rewrite of_int_exact by lia. cbn [bind].
    rewrite getattr_step_size. cbn [bind]. unfold Float.float_ at 1.
    cbn [int_of bind]. rewrite of_int_exact by lia. cbn [bind].
    rewrite getattr_step_type. cbn [bind].
    destruct (decide (VStepType ARITHMETIC = VStepType ARITHMETIC));
      [|contradiction].
    reflexivity.
  - intros Hd. apply debug_constructed_ok in Hd. destruct Hd as [_ Hw].
    apply well_formed_true in Hw. lia.
Qed.

(** X11: with a step type that is neither ARITHMETIC nor GEOMETRIC,
    which [debug] rejects, [max_n()] falls off the end of both branches
    and returns [None], for bounds and step below [2 ** 53] in
    magnitude. *)
Theorem max_n_unrecognized_step_type_returns_None name low high step_type
    step_size repr_type is_negative :
  step_type <> VStepType ARITHMETIC -> step_type <> VStepType GEOMETRIC ->
  Z.abs low < 2 ^ 53 -> Z.abs high < 2 ^ 53 -> Z.abs step_size < 2 ^ 53 ->
  max_n log float_pow
    (DiscreteParameter name low high step_type step_size repr_type
       is_negative) = Ok VNone
  /\ debug
       (DiscreteParameter name low high step_type step_size repr_type
          is_negative) <> Ok tt.
Proof.
  intros Ha Hg Hl Hh Hs. split.
  - unfold max_n.
    rewrite getattr_low. cbn [bind]. unfold Float.float_ at 1.
    cbn [int_of bind]. rewrite of_int_exact by lia. cbn [bind].
    rewrite getattr_high. cbn [bind]. unfold Float.float_ at 1.
    cbn [int_of bind]. rewrite of_int_exact by lia. cbn [bind].
    rewrite getattr_step_size. cbn [bind]. unfold Float.float_ at 1.
    cbn [int_of bind]. rewrite of_int_exact by lia. cbn [bind].
    rewrite getattr_step_type. cbn [bind].
    destruct (decide (step_type = VStepType ARITHMETIC)); [contradiction|].
    rewrite ?getattr_step_type. cbn [bind].
    destruct (decide (step_type = VStepType GEOMETRIC)); [contradiction|].
    reflexivity.
  - intros Hd. apply debug_constructed_ok in Hd. destruct Hd as [_ Hw].
    apply well_formed_true in Hw. destruct Hw as ([[] ->] & _); congruence.
Qed.

(** X12: on integers below [2 ** 53] the correction for roundoff of the
    arithmetic branch never fires: on integer bounds [0 <= low < high]
    and a positive integer step [max_n()] returns the integer quotient
    [(high - low) // step_size], never the quotient plus one. *)
Theorem max_n_arithmetic_is_floor_division name low high step_size repr_type
    is_negative :
  0 <= low -> low < high -> 0 < step_size ->
  high < 2 ^ 53 -> step_size < 2 ^ 53 ->
  max_n log float_pow
    (DiscreteParameter name low high (VStepType ARITHMETIC) step_size
       repr_type is_negative)
  = Ok (VInt ((high - low) / step_size))
  /\ low + step_size * ((high - low) / step_size) <= high
  /\ high < low + step_size * ((high - low) / step_size + 1).
Proof.
  intros Hlow Hlt Hstep Hhigh Hss.
  split; [apply max_n_arithmetic; assumption|].
  pose proof (Z.mul_div_le (high - low) step_size Hstep).
  pose proof (Z.mul_succ_div_gt (high - low) step_size Hstep).
  lia.
Qed.

End MaxNEdges.

Lemma max_n_zero_step_raises_ZeroDivisionError_witness :
  Z.abs 0 < 2 ^ 53 /\ Z.abs 10 < 2 ^ 53
  /\ max_n (fun _ _ => Ok S754_nan) (fun _ _ => Ok S754_nan)
       (DiscreteParameter "p" 0 10 (VStepType ARITHMETIC) 0
          default_repr_type default_is_negative)
     = raise ZeroDivisionError "float division by zero"
  /\ debug
       (DiscreteParameter "p" 0 10 (VStepType ARITHMETIC) 0
          default_repr_type default_is_negative) <> Ok tt.
Proof.
  split; [reflexivity|]. split; [reflexivity|].
  apply (max_n_zero_step_raises_ZeroDivisionError (fun _ _ => Ok S754_nan)
           (fun _ _ => Ok S754_nan) "p" 0 10 default_repr_type
           default_is_negative); reflexivity.
Defined.

Lemma max_n_unrecognized_step_type_returns_None_witness :
  VStr "linear" <> VStepType ARITHMETIC
  /\ VStr "linear" <> VStepType GEOMETRIC
  /\ Z.abs 0 < 2 ^ 53 /\ Z.abs 10 < 2 ^ 53 /\ Z.abs 1 < 2 ^ 53
  /\ max_n (fun _ _ => Ok S754_nan) (fun _ _ => Ok S754_nan)
       (DiscreteParameter "p" 0 10 (VStr "linear") 1 default_repr_type
          default_is_negative) = Ok VNone
  /\ debug
       (DiscreteParameter "p" 0 10 (VStr "linear") 1 default_repr_type
          default_is_negative) <> Ok tt.
Proof.
  split; [discriminate|]. split; [discriminate|].
  split; [reflexivity|]. split; [reflexivity|]. split; [reflexivity|].
  apply (max_n_unrecognized_step_type_returns_None (fun _ _ => Ok S754_nan)
           (fun _ _ => Ok S754_nan) "p" 0 10 (VStr "linear") 1
           default_repr_type default_is_negative);
    (discriminate || reflexivity).
Defined.

Lemma max_n_arithmetic_is_floor_division_witness :
  0 <= 32 /\ 32 < 512 /\ 0 < 32 /\ 512 < 2 ^ 53 /\ 32 < 2 ^ 53
  /\ max_n (fun _ _ => Ok S754_nan) (fun _ _ => Ok S754_nan) units
     = Ok (VInt ((512 - 32) / 32))
  /\ 32 + 32 * ((512 - 32) / 32) <= 512
  /\ 512 < 32 + 32 * ((512 - 32) / 32 + 1).
Proof.
  split; [lia|]. split; [lia|]. split; [lia|].
  split; [reflexivity|]. split; [reflexivity|].
  apply (max_n_arithmetic_is_floor_division (fun _ _ => Ok S754_nan)
           (fun _ _ => Ok S754_nan) "units" 32 512 32 default_repr_type
           default_is_negative); (lia || reflexivity).
Defined.

(** * [map_to_interval] on an instance that has the attribute [is_neg] *)

Lemma getattr_setattr_eq (self : obj) a v :
  getattr (setattr self a v) a = Ok v.
Proof. unfold getattr, setattr. now rewrite lookup_insert_eq. Qed.

Lemma getattr_setattr_ne (self : obj) a b v :
  a <> b -> getattr (setattr self a v) b = getattr self b.
Proof. intros H. unfold getattr, setattr. now rewrite lookup_insert_ne. Qed.

(** [interval_list] reads five attributes. *)
Lemma interval_list_reads fuel (self self' : obj) :
  getattr self "high" = getattr self' "high" ->
  getattr self "is_negative" = getattr self' "is_negative" ->
  getattr self "step_type" = getattr self' "step_type" ->
  getattr self "step_size" = getattr self' "step_size" ->
  getattr self "low" = getattr self' "low" ->
  interval_list fuel self = interval_list fuel self'.
Proof.
  intros Hh Hn Ht Hs Hl. unfold interval_list.
  rewrite Hh, Hn, Ht, Hs, Hl. reflexivity.
Qed.

(** X13: once the attribute [is_neg] is assigned on a constructed
    parameter ([p.is_neg = b]), [map_to_interval(n)] returns the closed
    form: [low + step_size * n] on an arithmetic interval,
    [low * step_size ** n] on a geometric one, negated when [b] is true.
    With a step type that is neither of the two it raises
    [UnboundLocalError] on [abs_val]. *)
Theorem map_to_interval_with_is_neg name low high step_type step_size
    repr_type is_negative (b : bool) (n : N) :
  (forall t,
      step_type = VStepType t ->
      map_to_interval
        (setattr
           (DiscreteParameter name low high step_type step_size repr_type
              is_negative) "is_neg" (VBool b)) n
      = Ok (VInt (signed b (magnitude t low step_size (Z.of_N n)))))
  /\ (step_type <> VStepType ARITHMETIC ->
      step_type <> VStepType GEOMETRIC ->
      map_to_interval
        (setattr
           (DiscreteParameter name low high step_type step_size repr_type
              is_negative) "is_neg" (VBool b)) n
      = raise UnboundLocalError "abs_val").
Proof.
  assert (Hst : forall v,
             getattr
               (setattr
                  (DiscreteParameter name low high step_type step_size
                     repr_type is_negative) "is_neg" v) "step_type"
             = Ok step_type)
    by (intros v; rewrite getattr_setattr_ne by discriminate;
        apply getattr_step_type).
  assert (Hlow : forall v,
             attr_int
               (setattr
                  (DiscreteParameter name low high step_type step_size
                     repr_type is_negative) "is_neg" v) "low" = Ok low)
    by (intros v; unfold attr_int;
        rewrite getattr_setattr_ne by discriminate;
        rewrite getattr_low; reflexivity).
  assert (Hss : forall v,
             attr_int
               (setattr
                  (DiscreteParameter name low high step_type step_size
                     repr_type is_negative) "is_neg" v) "step_size"
             = Ok step_size)
    by (intros v; unfold attr_int;
        rewrite getattr_setattr_ne by discriminate;
        rewrite getattr_step_size; reflexivity).
  split.
  - intros t ->. unfold map_to_interval. rewrite !Hst. cbn [bind].
    destruct t.
    + destruct (decide (VStepType ARITHMETIC = VStepType ARITHMETIC));
        [|contradiction].
      rewrite Hlow, Hss. cbn [bind]. rewrite getattr_setattr_eq.
      cbn [bind truthy magnitude]. unfold signed. destruct b; reflexivity.
    + destruct (decide (VStepType GEOMETRIC = VStepType ARITHMETIC));
        [discriminate|].
      cbn [bind].
      destruct (decide (VStepType GEOMETRIC = VStepType GEOMETRIC));
        [|contradiction].
      rewrite Hlow, Hss. cbn [bind]. rewrite getattr_setattr_eq.
      cbn [bind truthy magnitude]. unfold signed. destruct b; reflexivity.
  - intros Ha Hg. unfold map_to_interval. rewrite !Hst. cbn [bind].
    destruct (decide (step_type = VStepType ARITHMETIC)); [contradiction|].
    cbn [bind].
    destruct (decide (step_type = VStepType GEOMETRIC)); [contradiction|].
    cbn [bind]. rewrite getattr_setattr_eq. reflexivity.
Qed.

(** X14: on a parameter with integer [low], [high] and [step_size] that
    [debug] accepts, with [is_neg] assigned the value of [is_negative],
    [map_to_interval(n)] returns the element of [interval_list()] at
    index [n], for every index of the list; at an index past the end it
    raises nothing and returns a value whose magnitude exceeds
    [high]. *)
Theorem map_to_interval_with_is_neg_agrees name low high t step_size
    repr_type is_negative fuel l :
  debug
    (DiscreteParameter name low high (VStepType t) step_size repr_type
       is_negative) = Ok tt ->
  interval_list fuel
    (setattr
       (DiscreteParameter name low high (VStepType t) step_size repr_type
          is_negative) "is_neg" (VBool is_negative)) = Ok (Some l) ->
  forall n : N,
    exists v,
      map_to_interval
        (setattr
           (DiscreteParameter name low high (VStepType t) step_size
              repr_type is_negative) "is_neg" (VBool is_negative)) n
      = Ok (VInt v)
      /\ ((N.to_nat n < length l)%nat -> l !! N.to_nat n = Some v)
      /\ ((length l <= N.to_nat n)%nat -> high < Z.abs v).
Proof.
  intros Hd Hl n.
  rewrite (interval_list_reads fuel _
             (DiscreteParameter name low high (VStepType t) step_size
                repr_type is_negative)) in Hl
    by (apply getattr_setattr_ne; discriminate).
  destruct (interval_list_shape _ _ _ _ _ _ _ _ _ Hd Hl)
    as (g & -> & _ & _ & Hgt).
  apply debug_constructed_ok in Hd. destruct Hd as [_ Hw].
  apply well_formed_true in Hw.
  destruct Hw as (_ & Hlow & Hlt & Hstep & _).
  eexists. split; [|split].
  - apply map_to_interval_with_is_neg. reflexivity.
  - rewrite length_fmap, length_seq. intros Hn.
    rewrite list_lookup_fmap.
    rewrite (proj2 (lookup_seq 0 (S g) (N.to_nat n) (N.to_nat n))) by lia.
    cbn [fmap option_fmap option_map]. now rewrite N_nat_Z.
  - rewrite length_fmap, length_seq. intros Hn.
    rewrite abs_signed.
    pose proof (magnitude_nonneg t low step_size (Z.of_N n) Hlow Hstep
                  ltac:(lia)).
    rewrite Z.abs_eq by assumption. apply Hgt. lia.
Qed.

Lemma map_to_interval_with_is_neg_agrees_witness :
  debug batch = Ok tt
  /\ interval_list 8 (setattr batch "is_neg" (VBool false))
     = Ok (Some batch_interval)
  /\ forall n : N,
       exists v,
         map_to_interval (setattr batch "is_neg" (VBool false)) n
         = Ok (VInt v)
         /\ ((N.to_nat n < length batch_interval)%nat ->
             batch_interval !! N.to_nat n = Some v)
         /\ ((length batch_interval <= N.to_nat n)%nat -> 128 < Z.abs v).
Proof.
  split; [vm_compute; reflexivity|]. split; [vm_compute; reflexivity|].
  apply (map_to_interval_with_is_neg_agrees "batch" 1 128 GEOMETRIC 2
           default_repr_type default_is_negative 8 batch_interval);
    vm_compute; reflexivity.
Defined.

(** * [__str__] *)

(** X15: [__str__] returns a string exactly on the instances that have
    all eight attributes it renders, and otherwise raises
    [AttributeError]; every constructed parameter has them, so [__str__]
    and [__repr__] return on it, with the same string. *)
Theorem str_returns_iff_attributes_present (str_ : value -> string)
    (self : obj) :
  ((exists s, DiscreteParameter___str__ str_ self = Ok s)
   <-> forall a, a ∈ rendered_attributes -> is_Some (self !! a))
  /\ ((forall s, DiscreteParameter___str__ str_ self <> Ok s) ->
      raises (DiscreteParameter___str__ str_ self) AttributeError)
  /\ forall name low high step_type step_size repr_type is_negative,
       exists s,
         DiscreteParameter___str__ str_
           (DiscreteParameter name low high step_type step_size repr_type
              is_negative) = Ok s
         /\ DiscreteParameter___repr__ str_
              (DiscreteParameter name low high step_type step_size
                 repr_type is_negative) = Ok s.
Proof.
  split; [|split].
  - split.
    + intros [s Hs] a Ha. unfold DiscreteParameter___str__, getattr in Hs.
      unfold rendered_attributes in Ha.
      repeat (apply elem_of_cons in Ha; destruct Ha as [->|Ha]);
        try (apply elem_of_nil in Ha; contradiction);
        repeat match type of Hs with
               | context [?m !! ?k] =>
                   destruct (m !! k) eqn:?; cbn [bind raise] in Hs;
                   [|discriminate]
               end;
        eauto.
    + intros H. unfold DiscreteParameter___str__, getattr.
      assert (Hin : forall a, a ∈ rendered_attributes -> is_Some (self !! a))
        by exact H.
      repeat match goal with
             | |- context [self !! ?k] =>
                 let v := fresh "v" in
                 let Hv := fresh "Hv" in
                 destruct (Hin k) as [v Hv];
                 [unfold rendered_attributes; set_solver|];
                 rewrite Hv; cbn [bind]
             end.
      eauto.
  - intros Hs. unfold DiscreteParameter___str__, getattr in *.
    repeat match goal with
           | |- context [self !! ?k] =>
               destruct (self !! k); cbn [bind raise] in *;
               [|reflexivity]
           end.
    exfalso. eapply Hs. reflexivity.
  - intros. eexists. split; reflexivity.
Qed.

(** * [setup.py] *)

Section SetupFacts.

Import Setup.

Local Ltac by_cases env :=
  unfold requirements;
  destruct (on_theta env), (on_rtd env), (on_gpu env);
  cbn [negb andb];
  eexists _, _; (split; [vm_compute; reflexivity|]);
  apply (bool_decide_unpack _); vm_compute; exact I.

(** X16: in every environment the requirements are computed without an
    exception (the [remove] of the GPU branch finds its element), the
    list has no duplicate, and it holds the nine packages that are not
    TensorFlow; [balsam] and a dependency link are added exactly on a
    host whose name contains [theta]. *)
Theorem setup_requirements_well_formed (env : environ) :
  exists REQUIRED DP_LINKS,
    requirements env = Ok (REQUIRED, DP_LINKS)
    /\ NoDup REQUIRED
    /\ Forall (fun p => p ∈ REQUIRED)
         [ "numpy"; "scikit-optimize"; "scikit-learn"; "tqdm"; "keras";
           "deap"; "gym"; "networkx"; "joblib" ]
    /\ ("balsam" ∈ REQUIRED <-> on_theta env = true)
    /\ (DP_LINKS <> [] <-> on_theta env = true).
Proof. by_cases env. Qed.

(** X17: in every environment exactly one TensorFlow requirement is
    listed: [tensorflow-gpu] when [DH_GPU] is [true] off a theta host,
    [tensorflow>=1.11.0] otherwise; on a theta host [DH_GPU] is
    ignored. *)
Theorem setup_one_tensorflow (env : environ) :
  exists REQUIRED DP_LINKS,
    requirements env = Ok (REQUIRED, DP_LINKS)
    /\ ("tensorflow-gpu" ∈ REQUIRED
        <-> on_gpu env && negb (on_theta env) = true)
    /\ ("tensorflow>=1.11.0" ∈ REQUIRED
        <-> on_gpu env && negb (on_theta env) = false).
Proof. by_cases env. Qed.

(** X18: the MPI binding is required everywhere but in a documentation
    build: pinned [mpi4py>=3.0.0] in the plain environment, unpinned
    [mpi4py] on a theta host or with a GPU.  In a documentation build
    (Read the Docs, no theta host, no GPU) neither is listed and the
    requirements are the base list followed by the [docs] extra. *)
Theorem setup_mpi4py (env : environ) :
  exists REQUIRED DP_LINKS,
    requirements env = Ok (REQUIRED, DP_LINKS)
    /\ ("mpi4py>=3.0.0" ∈ REQUIRED
        <-> negb (on_theta env) && negb (on_rtd env) && negb (on_gpu env)
            = true)
    /\ ("mpi4py" ∈ REQUIRED <-> on_theta env || on_gpu env = true)
    /\ (negb (on_theta env) && on_rtd env && negb (on_gpu env) = true
        <-> Some REQUIRED = (app REQUIRED_base <$> EXTRAS !! "docs")).
Proof. by_cases env. Qed.

End SetupFacts.
